(** * BlueprintExporter: graph serialization, dependency extraction and
      the change monitor

    A shallow embedding of
    [Plugins/BlueprintExporter/Source/BlueprintExporter/Private/BlueprintExporter.cpp]
    (class [UBlueprintExporterLibrary] and class [UBlueprintChangeMonitor]).

    Conventions of the embedding.
    - A C++ pointer is an [option]: [None] is [nullptr].  Graph nodes and
      pins are compared by address in the source ([TArray::AddUnique] on
      [UEdGraphNode*]), so they live in a heap and a pointer to one of them
      is an optional address.  Blueprints, graphs, classes and plain objects
      are only ever read through, so a pointer to one of them is an optional
      value.
    - A function that dereferences one of its pointers without testing it
      returns an [option]: [None] stands for the null dereference.  A
      function that tests first is a plain function.
    - [TSharedPtr<FJsonObject>] is an insertion-ordered field list,
      [TSet<FString>] a [gset string], [TArray] a [list]. *)

From Stdlib Require Import ZArith.
From stdpp Require Import base option list strings gmap.
From stdpp Require Import pretty.

#[local] Set Warnings "-register-all,-clear-no-such-hyp".

(** ** Engine types read by the exporter *)

Abbreviation FString := string (only parsing).
Abbreviation FName := string (only parsing).
Abbreviation FText := string (only parsing).
Abbreviation addr := nat (only parsing).

(** [UClass]: the name, the path name and the super class chain walked by
    [Cast<T>]. *)
Inductive UClass : Type :=
| MkClass (ClassName : FString) (ClassPathName : FString) (SuperClass : option UClass).

Definition ClassName (c : UClass) : FString :=
  match c with MkClass n _ _ => n end.
Definition ClassPathName (c : UClass) : FString :=
  match c with MkClass _ p _ => p end.
Definition SuperClass (c : UClass) : option UClass :=
  match c with MkClass _ _ s => s end.

(** [UObject::IsA] against a static class, identified by its name. *)
Fixpoint IsChildOf (c : UClass) (target : FString) : bool :=
  match c with
  | MkClass n _ s =>
      if bool_decide (n = target) then true
      else match s with
           | Some parent => IsChildOf parent target
           | None => false
           end
  end.

Definition UK2Node : FString := "K2Node".
Definition UK2Node_Event : FString := "K2Node_Event".
Definition UK2Node_FunctionEntry : FString := "K2Node_FunctionEntry".
Definition UK2Node_CallFunction : FString := "K2Node_CallFunction".
Definition UK2Node_VariableGet : FString := "K2Node_VariableGet".
Definition UK2Node_VariableSet : FString := "K2Node_VariableSet".
Definition UBlueprint_StaticClass : FString := "Blueprint".

Record UObject : Type := MkObject {
  ObjName : FString;
  ObjPathName : FString;
  ObjClass : UClass
}.

Inductive EEdGraphPinDirection : Type := EGPD_Input | EGPD_Output | EGPD_MAX.

Global Instance EEdGraphPinDirection_eq_dec : EqDecision EEdGraphPinDirection.
Proof. solve_decision. Defined.

(** Modelled from the spec: the engine's declaration of [FEdGraphPinType]
    is not part of the source.  Section 3 gives the type descriptor as a
    base category, an optional referenced type and a collection flag.
    [PinCategory] is the category name, which the source compares with the
    schema's names and prints with [ToString]; [PinSubCategoryObject] is
    the weak pointer, [None] when it is not valid; [IsArray] is what the
    query of that name answers. *)
Record FEdGraphPinType : Type := MkPinType {
  PinCategory : FName;
  PinSubCategoryObject : option UObject;
  IsArray : bool
}.

Record UEdGraphPin : Type := MkPin {
  PinName : FName;
  PinDisplayName : FText;
  Direction : EEdGraphPinDirection;
  PinType : FEdGraphPinType;
  DefaultValue : FString;
  DefaultObject : option UObject;
  LinkedTo : list (option addr);
  OwningNode : option addr
}.

(** [UEdGraphNode]: [MenuCategory] is what [GetMenuCategory] answers and
    [MemberParentClass] what [FunctionReference.GetMemberParentClass]
    answers; both are only read after the matching [Cast]. *)
Record UEdGraphNode : Type := MkNode {
  NodeName : FString;
  NodeClass : UClass;
  NodeTitle : FText;
  MenuCategory : FText;
  NodePosX : Z;
  NodePosY : Z;
  Pins : list (option addr);
  MemberParentClass : option UClass
}.

Record UEdGraph : Type := MkGraph {
  GraphName : FString;
  Nodes : list (option addr)
}.

Record FBPVariableDescription : Type := MkVariable {
  VarName : FName;
  VarType : FEdGraphPinType;
  Category : FText;
  PropertyFlags : Z;
  VarDefaultValue : FString
}.

Record USCS_Node : Type := MkSCSNode {
  VariableName : FName;
  ComponentTemplate : option UObject
}.

Record UBlueprint : Type := MkBlueprint {
  BlueprintName : FString;
  BlueprintPathName : FString;
  ParentClass : option UClass;
  GeneratedClass : option UClass;
  UbergraphPages : list (option UEdGraph);
  FunctionGraphs : list (option UEdGraph);
  NewVariables : list FBPVariableDescription;
  SimpleConstructionScript : option (list (option USCS_Node))
}.

(** The object heap: every non-null node or pin pointer refers to a live
    object. *)
Record Heap : Type := MkHeap {
  node_at : addr → UEdGraphNode;
  pin_at : addr → UEdGraphPin
}.

(** Engine constants the source names but does not define. *)
Class EngineConstants : Type := MkEngineConstants {
  PC_Exec : FName;
  PC_Object : FName;
  CPF_ExposeOnSpawn : Z;
  UBlueprint_ClassPathName : FString
}.

(** ** JSON documents *)

Inductive FJsonValue : Type :=
| FJsonValueString (s : FString)
| FJsonValueNumber (z : Z)
| FJsonValueBoolean (b : bool)
| FJsonValueArray (l : list FJsonValue)
| FJsonValueObject (o : list (FString * FJsonValue)).

Abbreviation FJsonObject := (list (FString * FJsonValue)) (only parsing).

(** [FJsonObject::SetField]: replace the value of an existing key in place,
    append a new key otherwise. *)
Fixpoint SetField (k : FString) (v : FJsonValue) (o : FJsonObject) : FJsonObject :=
  match o with
  | [] => [(k, v)]
  | (k', v') :: o' =>
      if bool_decide (k' = k) then (k, v) :: o' else (k', v') :: SetField k v o'
  end.

Definition SetStringField (k : FString) (s : FString) : FJsonObject → FJsonObject :=
  SetField k (FJsonValueString s).
Definition SetNumberField (k : FString) (z : Z) : FJsonObject → FJsonObject :=
  SetField k (FJsonValueNumber z).
Definition SetBoolField (k : FString) (b : bool) : FJsonObject → FJsonObject :=
  SetField k (FJsonValueBoolean b).
Definition SetArrayField (k : FString) (l : list FJsonValue) : FJsonObject → FJsonObject :=
  SetField k (FJsonValueArray l).
Definition SetObjectField (k : FString) (o' : FJsonObject) : FJsonObject → FJsonObject :=
  SetField k (FJsonValueObject o').

Fixpoint GetField (k : FString) (o : FJsonObject) : option FJsonValue :=
  match o with
  | [] => None
  | (k', v) :: o' => if bool_decide (k' = k) then Some v else GetField k o'
  end.

(** ** Control flow *)

(** A range-based [for] loop whose body may hit a null dereference. *)
Fixpoint for_each {A S : Type} (l : list A) (body : A → S → option S) (s : S) : option S :=
  match l with
  | [] => Some s
  | x :: l' => s' ← body x s; for_each l' body s'
  end.

(** [Cast<T>(Node)]: null for a null pointer and for a node of another class. *)
Definition Cast (T : FString) (h : Heap) (Node : option addr) : option addr :=
  a ← Node; if IsChildOf (NodeClass (node_at h a)) T then Some a else None.

(** [TArray::AddUnique]. *)
Definition AddUnique `{EqDecision A} (x : A) (l : list A) : list A :=
  if bool_decide (x ∈ l) then l else l ++ [x].

(** ** Helper functions (source lines 389-448) *)

(** Modelled from the spec: [FName::ToString], whose declaration is not
    part of the source.  Section 4.1 has every type descriptor encode to a
    non-empty string and wants it to carry a category: a name never prints
    as the empty string, the empty name being the engine's [NAME_None],
    which prints as [None]. *)
Definition FName_ToString (Name : FName) : FString :=
  if bool_decide (Name = "") then "None" else Name.

Definition PinTypeToString (PinType : FEdGraphPinType) : FString :=
  let TypeString := FName_ToString (PinCategory PinType) in
  let TypeString :=
    match PinSubCategoryObject PinType with
    | Some o => TypeString +:+ (("<" +:+ ObjName o) +:+ ">")
    | None => TypeString
    end in
  if IsArray PinType then ("Array<" +:+ TypeString) +:+ ">" else TypeString.

Definition NodeTypeToString (h : Heap) (Node : option addr) : FString :=
  match Node with
  | None => "Unknown"
  | Some a =>
      if Cast UK2Node_Event h Node is Some _ then "Event"
      else if Cast UK2Node_FunctionEntry h Node is Some _ then "FunctionEntry"
      else if Cast UK2Node_CallFunction h Node is Some _ then "CallFunction"
      else if Cast UK2Node_VariableGet h Node is Some _ then "VariableGet"
      else if Cast UK2Node_VariableSet h Node is Some _ then "VariableSet"
      else ClassName (NodeClass (node_at h a))
  end.

Definition GetNodeCategory (h : Heap) (Node : option addr) : FString :=
  match Cast UK2Node h Node with
  | Some K2Node => MenuCategory (node_at h K2Node)
  | None => ""
  end.

Definition GetConnectedNodes (h : Heap) (Node : option addr) : option (list (option addr)) :=
  n ← node_at h <$> Node;
  for_each (Pins n) (λ Pin ConnectedNodes,
    match Pin with
    | Some p =>
        if bool_decide (Direction (pin_at h p) = EGPD_Output) then
          for_each (LinkedTo (pin_at h p)) (λ LinkedPin ConnectedNodes,
            match LinkedPin with
            | Some lp =>
                if OwningNode (pin_at h lp) is Some _
                then Some (AddUnique (OwningNode (pin_at h lp)) ConnectedNodes)
                else Some ConnectedNodes
            | None => Some ConnectedNodes
            end) ConnectedNodes
        else Some ConnectedNodes
    | None => Some ConnectedNodes
    end) [].

(** ** Serialization functions (source lines 108-383) *)

Section Serialization.
Context `{EngineConstants}.

Definition SerializePin (h : Heap) (Pin : option addr) : option FJsonObject :=
  P ← pin_at h <$> Pin;
  let PinObject := [] in
  let PinObject := SetStringField "name" (PinName P) PinObject in
  let PinObject := SetStringField "display_name" (PinDisplayName P) PinObject in
  let PinObject :=
    SetStringField "direction"
      (if bool_decide (Direction P = EGPD_Input) then "input" else "output") PinObject in
  let PinObject := SetStringField "type" (PinTypeToString (PinType P)) PinObject in
  let PinObject :=
    if bool_decide (DefaultValue P ≠ "")
    then SetStringField "default_value" (DefaultValue P) PinObject
    else PinObject in
  Some PinObject.

Definition SerializeNode (h : Heap) (Node : option addr) : option FJsonObject :=
  N ← node_at h <$> Node;
  let NodeObject := [] in
  let NodeObject := SetStringField "id" (NodeName N) NodeObject in
  let NodeObject := SetStringField "type" (NodeTypeToString h Node) NodeObject in
  let NodeObject := SetStringField "title" (NodeTitle N) NodeObject in
  let NodeObject := SetStringField "category" (GetNodeCategory h Node) NodeObject in
  let PosObject := [] in
  let PosObject := SetNumberField "x" (NodePosX N) PosObject in
  let PosObject := SetNumberField "y" (NodePosY N) PosObject in
  let NodeObject := SetObjectField "position" PosObject NodeObject in
  PinsArray ← for_each (Pins N) (λ Pin PinsArray,
    if Pin is Some _ then
      PinObject ← SerializePin h Pin;
      Some (PinsArray ++ [FJsonValueObject PinObject])
    else Some PinsArray) [];
  let NodeObject := SetArrayField "pins" PinsArray NodeObject in
  ConnectedNodes ← GetConnectedNodes h Node;
  ConnectionsArray ← for_each ConnectedNodes (λ ConnectedNode ConnectionsArray,
    C ← node_at h <$> ConnectedNode;
    Some (ConnectionsArray ++ [FJsonValueString (NodeName C)])) [];
  let NodeObject := SetArrayField "connections" ConnectionsArray NodeObject in
  Some NodeObject.

Definition SerializeGraph (h : Heap) (Graph : option UEdGraph) : option FJsonObject :=
  G ← Graph;
  let GraphObject := [] in
  let GraphObject := SetStringField "name" (GraphName G) GraphObject in
  NodesArray ← for_each (Nodes G) (λ Node NodesArray,
    if Node is Some _ then
      NodeObject ← SerializeNode h Node;
      Some (NodesArray ++ [FJsonValueObject NodeObject])
    else Some NodesArray) [];
  let GraphObject := SetArrayField "nodes" NodesArray GraphObject in
  Some GraphObject.

Definition SerializeVariables (Blueprint : option UBlueprint) : option (list FJsonValue) :=
  B ← Blueprint;
  for_each (NewVariables B) (λ Variable_ VariablesArray,
    let VarObject := [] in
    let VarObject := SetStringField "name" (VarName Variable_) VarObject in
    let VarObject := SetStringField "type" (PinTypeToString (VarType Variable_)) VarObject in
    let VarObject := SetStringField "category" (Category Variable_) VarObject in
    let VarObject :=
      SetBoolField "is_exposed"
        (negb (Z.land (PropertyFlags Variable_) CPF_ExposeOnSpawn =? 0)%Z) VarObject in
    let VarObject :=
      if bool_decide (VarDefaultValue Variable_ ≠ "")
      then SetStringField "default_value" (VarDefaultValue Variable_) VarObject
      else VarObject in
    Some (VariablesArray ++ [FJsonValueObject VarObject])) [].

Definition SerializeFunctions (h : Heap) (Blueprint : option UBlueprint)
  : option (list FJsonValue) :=
  B ← Blueprint;
  for_each (FunctionGraphs B) (λ FunctionGraph FunctionsArray,
    match FunctionGraph with
    | None => Some FunctionsArray
    | Some G =>
        let FuncObject := [] in
        let FuncObject := SetStringField "name" (GraphName G) FuncObject in
        ParamsArray ← for_each (Nodes G) (λ Node ParamsArray,
          match Cast UK2Node_FunctionEntry h Node with
          | Some EntryNode =>
              for_each (Pins (node_at h EntryNode)) (λ Pin ParamsArray,
                match Pin with
                | Some p =>
                    if bool_decide (Direction (pin_at h p) = EGPD_Output)
                       && bool_decide (PinCategory (PinType (pin_at h p)) ≠ PC_Exec)
                    then
                      let ParamObject := [] in
                      let ParamObject :=
                        SetStringField "name" (PinName (pin_at h p)) ParamObject in
                      let ParamObject :=
                        SetStringField "type"
                          (PinTypeToString (PinType (pin_at h p))) ParamObject in
                      Some (ParamsArray ++ [FJsonValueObject ParamObject])
                    else Some ParamsArray
                | None => Some ParamsArray
                end) ParamsArray
          | None => Some ParamsArray
          end) [];
        let FuncObject := SetArrayField "parameters" ParamsArray FuncObject in
        GraphObject ← SerializeGraph h FunctionGraph;
        let FuncObject := SetObjectField "graph" GraphObject FuncObject in
        Some (FunctionsArray ++ [FJsonValueObject FuncObject])
    end) [].

Definition SerializeComponents (Blueprint : option UBlueprint) : option (list FJsonValue) :=
  B ← Blueprint;
  match SimpleConstructionScript B with
  | Some SCSNodes =>
      for_each SCSNodes (λ Node ComponentsArray,
        match Node with
        | Some N =>
            match ComponentTemplate N with
            | Some Template =>
                let CompObject := [] in
                let CompObject := SetStringField "name" (VariableName N) CompObject in
                let CompObject :=
                  SetStringField "class" (ClassName (ObjClass Template)) CompObject in
                Some (ComponentsArray ++ [FJsonValueObject CompObject])
            | None => Some ComponentsArray
            end
        | None => Some ComponentsArray
        end) []
  | None => Some []
  end.

(** The block the source repeats for [ClassPath] and for [ObjectPath]:
    append the path unless it is empty or already in [UniqueDependencies]. *)
Definition AddDependency (Path : FString) (st : list FJsonValue * gset FString)
  : list FJsonValue * gset FString :=
  let '(DependenciesArray, UniqueDependencies) := st in
  if bool_decide (Path ≠ "") && bool_decide (Path ∉ UniqueDependencies)
  then (DependenciesArray ++ [FJsonValueString Path], {[Path]} ∪ UniqueDependencies)
  else st.

Definition ExtractDependencies (h : Heap) (Blueprint : option UBlueprint)
  : option (list FJsonValue) :=
  B ← Blueprint;
  fst <$> for_each (UbergraphPages B) (λ Graph st,
    match Graph with
    | None => Some st
    | Some G =>
        for_each (Nodes G) (λ Node st,
          match Node with
          | None => Some st
          | Some a =>
              let st :=
                match Cast UK2Node_CallFunction h Node with
                | Some CallNode =>
                    match MemberParentClass (node_at h CallNode) with
                    | Some FunctionClass => AddDependency (ClassPathName FunctionClass) st
                    | None => st
                    end
                | None => st
                end in
              for_each (Pins (node_at h a)) (λ Pin st,
                match Pin with
                | Some p =>
                    if bool_decide (PinCategory (PinType (pin_at h p)) = PC_Object) then
                      match DefaultObject (pin_at h p) with
                      | Some Object => Some (AddDependency (ObjPathName Object) st)
                      | None => Some st
                      end
                    else Some st
                | None => Some st
                end) st
          end) st
    end) ([], ∅).

Definition SerializeBlueprint (h : Heap) (Blueprint : option UBlueprint)
  : option FJsonObject :=
  B ← Blueprint;
  let JsonObject := [] in
  let JsonObject := SetStringField "name" (BlueprintName B) JsonObject in
  let JsonObject := SetStringField "path" (BlueprintPathName B) JsonObject in
  let JsonObject := SetStringField "class_type" "Blueprint" JsonObject in
  let JsonObject :=
    match ParentClass B with
    | Some c => SetStringField "parent_class" (ClassName c) JsonObject
    | None => JsonObject
    end in
  let JsonObject :=
    match GeneratedClass B with
    | Some c => SetStringField "generated_class" (ClassName c) JsonObject
    | None => JsonObject
    end in
  let add_graph := λ (Graph : option UEdGraph) (GraphsArray : list FJsonValue),
    if Graph is Some _ then
      GraphObject ← SerializeGraph h Graph;
      Some (GraphsArray ++ [FJsonValueObject GraphObject])
    else Some GraphsArray in
  GraphsArray ← for_each (UbergraphPages B) add_graph [];
  GraphsArray ← for_each (FunctionGraphs B) add_graph GraphsArray;
  let JsonObject := SetArrayField "graphs" GraphsArray JsonObject in
  Variables ← SerializeVariables Blueprint;
  let JsonObject := SetArrayField "variables" Variables JsonObject in
  Functions ← SerializeFunctions h Blueprint;
  let JsonObject := SetArrayField "functions" Functions JsonObject in
  Components ← SerializeComponents Blueprint;
  let JsonObject := SetArrayField "components" Components JsonObject in
  Dependencies ← ExtractDependencies h Blueprint;
  let JsonObject := SetArrayField "dependencies" Dependencies JsonObject in
  Some JsonObject.

End Serialization.

(** ** Export entry points (source lines 24-82) *)

Inductive ELogVerbosity : Type := LogError | LogLog.

(** The collaborators of the entry points: the JSON writer behind
    [FJsonSerializer::Serialize] and the file system behind
    [FFileHelper::SaveStringToFile]. *)
Class Platform : Type := MkPlatform {
  JsonSerialize : FJsonObject → FString;
  FileSystem : Type;
  SaveStringToFile : FString → FString → FileSystem → bool * FileSystem
}.

Record World `{Platform} : Type := MkWorld {
  OutputLog : list (ELogVerbosity * FString);
  Files : FileSystem
}.

Section EntryPoints.
Context `{EngineConstants} `{Platform}.

Definition UE_LOG (Verbosity : ELogVerbosity) (Message : FString) (w : World) : World :=
  MkWorld _ (OutputLog w ++ [(Verbosity, Message)]) (Files w).

Definition ExtractBlueprintData (h : Heap) (Blueprint : option UBlueprint) (w : World)
  : option (FString * World) :=
  match Blueprint with
  | None => Some ("{}", UE_LOG LogError "ExtractBlueprintData: Invalid blueprint" w)
  | Some _ =>
      JsonObject ← SerializeBlueprint h Blueprint;
      Some (JsonSerialize JsonObject, w)
  end.

Definition ExportBlueprintToFile (h : Heap) (Blueprint : option UBlueprint)
    (FilePath : FString) (w : World) : option (bool * World) :=
  match Blueprint with
  | None => Some (false, UE_LOG LogError "ExportBlueprintToFile: Invalid blueprint" w)
  | Some _ =>
      '(JsonString, w) ← ExtractBlueprintData h Blueprint w;
      let '(Saved, fs) := SaveStringToFile JsonString FilePath (Files w) in
      let w := MkWorld _ (OutputLog w) fs in
      if Saved
      then Some (true, UE_LOG LogLog ("Exported blueprint to: " +:+ FilePath) w)
      else Some (false, UE_LOG LogError ("Failed to save file: " +:+ FilePath) w)
  end.

End EntryPoints.

(** ** Blueprint change monitor (source lines 454-505) *)

Inductive MonitorMethod : Type :=
| Method_OnAssetAdded | Method_OnAssetRemoved | Method_OnAssetModified.

(** One entry of a multicast delegate's invocation list: the bound object
    and its member function. *)
Record FDelegateBinding : Type := MkBinding {
  UserObject : addr;
  BoundMethod : MonitorMethod
}.

(** Modelled from the spec: the engine's multicast delegate behind
    [OnAssetAdded()], [OnAssetRemoved()] and [OnAssetUpdated()] is not part
    of the source.  Section 6 gives it as [subscribe(event_class, handler)]
    and [unsubscribe_all(handler_owner)], and section 4.7 asks the caller to
    unsubscribe a prior registration before subscribing again: subscribing
    appends a registration, whatever is registered already. *)
Definition AddUObject (this : addr) (m : MonitorMethod) (d : list FDelegateBinding)
  : list FDelegateBinding :=
  d ++ [MkBinding this m].

(** Modelled from the spec: [unsubscribe_all(handler_owner)] of section 6,
    the engine's [RemoveAll]; it drops every registration of the owner. *)
Definition RemoveAll (this : addr) (d : list FDelegateBinding) : list FDelegateBinding :=
  filter (λ b, UserObject b ≠ this) d.

Record FAssetData : Type := MkAssetData {
  AssetClassPath : FString;
  GetAsset : option UObject
}.

Module IAssetRegistry.
Record t : Type := Mk {
  OnAssetAdded : list FDelegateBinding;
  OnAssetRemoved : list FDelegateBinding;
  OnAssetUpdated : list FDelegateBinding
}.
End IAssetRegistry.

(** The state the monitors act on: the asset registry, the
    [OnBlueprintChangedDelegate] member of every monitor object (no entry:
    the delegate is unbound), the executions of bound callbacks so far, and
    the log. *)
Record MonitorWorld : Type := MkMonitorWorld {
  AssetRegistry : IAssetRegistry.t;
  OnBlueprintChangedDelegate : gmap addr FString;
  Executed : list (FString * UObject);
  MonitorLog : list (ELogVerbosity * FString)
}.

Inductive AssetEvent : Type :=
| AssetAdded (AssetData : FAssetData)
| AssetRemoved (AssetData : FAssetData)
| AssetUpdated (AssetData : FAssetData).

Module UBlueprintChangeMonitor.
Section Monitor.
Context `{EngineConstants}.

Definition StartMonitoring (this : addr) (OnChanged : option FString) (w : MonitorWorld)
  : MonitorWorld :=
  let Delegates :=
    match OnChanged with
    | Some f => <[this := f]> (OnBlueprintChangedDelegate w)
    | None => delete this (OnBlueprintChangedDelegate w)
    end in
  let R := AssetRegistry w in
  let R :=
    IAssetRegistry.Mk
      (AddUObject this Method_OnAssetAdded (IAssetRegistry.OnAssetAdded R))
      (AddUObject this Method_OnAssetRemoved (IAssetRegistry.OnAssetRemoved R))
      (AddUObject this Method_OnAssetModified (IAssetRegistry.OnAssetUpdated R)) in
  MkMonitorWorld R Delegates (Executed w)
    (MonitorLog w ++ [(LogLog, "Blueprint change monitoring started")]).

Definition StopMonitoring (this : addr) (w : MonitorWorld) : MonitorWorld :=
  let R := AssetRegistry w in
  let R :=
    IAssetRegistry.Mk
      (RemoveAll this (IAssetRegistry.OnAssetAdded R))
      (RemoveAll this (IAssetRegistry.OnAssetRemoved R))
      (RemoveAll this (IAssetRegistry.OnAssetUpdated R)) in
  MkMonitorWorld R (OnBlueprintChangedDelegate w) (Executed w)
    (MonitorLog w ++ [(LogLog, "Blueprint change monitoring stopped")]).

(** [OnBlueprintChangedDelegate.ExecuteIfBound(Blueprint)]. *)
Definition ExecuteIfBound (this : addr) (Blueprint : UObject) (w : MonitorWorld)
  : MonitorWorld :=
  match OnBlueprintChangedDelegate w !! this with
  | Some f =>
      MkMonitorWorld (AssetRegistry w) (OnBlueprintChangedDelegate w)
        (Executed w ++ [(f, Blueprint)]) (MonitorLog w)
  | None => w
  end.

Definition OnAssetAdded (this : addr) (AssetData : FAssetData) (w : MonitorWorld)
  : MonitorWorld :=
  if bool_decide (AssetClassPath AssetData = UBlueprint_ClassPathName) then
    match GetAsset AssetData with
    | Some o => if IsChildOf (ObjClass o) UBlueprint_StaticClass
                then ExecuteIfBound this o w else w
    | None => w
    end
  else w.

Definition OnAssetRemoved (this : addr) (AssetData : FAssetData) (w : MonitorWorld)
  : MonitorWorld := w.

Definition OnAssetModified (this : addr) (AssetData : FAssetData) (w : MonitorWorld)
  : MonitorWorld :=
  if bool_decide (AssetClassPath AssetData = UBlueprint_ClassPathName) then
    match GetAsset AssetData with
    | Some o => if IsChildOf (ObjClass o) UBlueprint_StaticClass
                then ExecuteIfBound this o w else w
    | None => w
    end
  else w.

(** The call of one registration: the member function on the bound object. *)
Definition Invoke (AssetData : FAssetData) (w : MonitorWorld) (b : FDelegateBinding)
  : MonitorWorld :=
  match BoundMethod b with
  | Method_OnAssetAdded => OnAssetAdded (UserObject b) AssetData w
  | Method_OnAssetRemoved => OnAssetRemoved (UserObject b) AssetData w
  | Method_OnAssetModified => OnAssetModified (UserObject b) AssetData w
  end.

(** Modelled from the spec: the [Broadcast] of the engine's multicast
    delegate, which is not part of the source.  Every registration is
    invoked once (section 4.7); section 5 leaves the order of dispatch to
    the notification source, and the engine's delegate walks its invocation
    list from the last registration to the first. *)
Definition Broadcast (d : list FDelegateBinding) (AssetData : FAssetData)
    (w : MonitorWorld) : MonitorWorld :=
  foldl (Invoke AssetData) w (reverse d).

(** The asset registry raising one of its three events. *)
Definition Raise (e : AssetEvent) (w : MonitorWorld) : MonitorWorld :=
  match e with
  | AssetAdded d => Broadcast (IAssetRegistry.OnAssetAdded (AssetRegistry w)) d w
  | AssetRemoved d => Broadcast (IAssetRegistry.OnAssetRemoved (AssetRegistry w)) d w
  | AssetUpdated d => Broadcast (IAssetRegistry.OnAssetUpdated (AssetRegistry w)) d w
  end.

(** The registrations a monitor holds on one event. *)
Definition Subscriptions (this : addr) (d : list FDelegateBinding) : nat :=
  length (filter (λ b, UserObject b = this) d).

End Monitor.
End UBlueprintChangeMonitor.

(** ** Project-wide export (source lines 42-61 and 84-102) *)

(** The collaborators of the project-wide export: what the asset registry
    answers to [GetAssetsByClass], the blueprint that an asset object is
    when [Cast<UBlueprint>] succeeds on it, and [FPaths::Combine]. *)
Class Project : Type := MkProject {
  GetAssetsByClass : FString → list FAssetData;
  AsBlueprint : UObject → UBlueprint;
  PathsCombine : FString → FString → FString
}.

Section ProjectExport.
Context `{EngineConstants} `{Platform} `{Project}.

(** [Cast<UBlueprint>(Object)]. *)
Definition CastBlueprint (Object : option UObject) : option UBlueprint :=
  o ← Object;
  if IsChildOf (ObjClass o) UBlueprint_StaticClass then Some (AsBlueprint o) else None.

Definition GetAllProjectBlueprints : list (option UBlueprint) :=
  let AssetDataList := GetAssetsByClass UBlueprint_ClassPathName in
  foldl (λ Blueprints AssetData,
    if CastBlueprint (GetAsset AssetData) is Some Blueprint
    then Blueprints ++ [Some Blueprint]
    else Blueprints) [] AssetDataList.

Definition ExportAllBlueprints (h : Heap) (OutputDirectory : FString) (w : World)
  : option (Z * World) :=
  let Blueprints := GetAllProjectBlueprints in
  '(ExportedCount, w) ← for_each Blueprints (λ Blueprint '(ExportedCount, w),
    B ← Blueprint;
    let FileName := BlueprintName B +:+ ".json" in
    let FilePath := PathsCombine OutputDirectory FileName in
    '(Exported, w) ← ExportBlueprintToFile h Blueprint FilePath w;
    Some (if Exported : bool then (ExportedCount + 1)%Z else ExportedCount, w)) (0%Z, w);
  Some (ExportedCount,
        UE_LOG LogLog
          ("Exported " +:+ pretty ExportedCount +:+ " blueprints to " +:+ OutputDirectory)
          w).

End ProjectExport.

(** A file system that records every file written to it, in order, and
    never refuses a write. *)
Definition Recording (Serialize : FJsonObject → FString) : Platform :=
  {| JsonSerialize := Serialize;
     FileSystem := list (FString * FString);
     SaveStringToFile := λ Text FilePath fs, (true, fs ++ [(FilePath, Text)]) |}.

(** ** Histories of the change monitor *)

(** What can happen to the monitors: a call of one of the two methods on a
    monitor object, or the asset registry raising an event. *)
Inductive MonitorStep : Type :=
| CallStartMonitoring (this : addr) (OnChanged : option FString)
| CallStopMonitoring (this : addr)
| RegistryEvent (e : AssetEvent).

Section Histories.
Context `{EngineConstants}.

Definition Step (w : MonitorWorld) (s : MonitorStep) : MonitorWorld :=
  match s with
  | CallStartMonitoring this OnChanged => UBlueprintChangeMonitor.StartMonitoring this OnChanged w
  | CallStopMonitoring this => UBlueprintChangeMonitor.StopMonitoring this w
  | RegistryEvent e => UBlueprintChangeMonitor.Raise e w
  end.

(** The world after a history, from the world without any registration. *)
Definition After (history : list MonitorStep) : MonitorWorld :=
  foldl Step (MkMonitorWorld (IAssetRegistry.Mk [] [] []) ∅ [] []) history.

End Histories.

(** The calls of [StartMonitoring] on a monitor since the last call of
    [StopMonitoring] on it, and the callback given to the last call of
    [StartMonitoring] on it. *)
Definition pending_starts (this : addr) (history : list MonitorStep) : nat :=
  foldl (λ n s,
    match s with
    | CallStartMonitoring t _ => if bool_decide (t = this) then S n else n
    | CallStopMonitoring t => if bool_decide (t = this) then 0 else n
    | RegistryEvent _ => n
    end) 0 history.

Definition last_callback (this : addr) (history : list MonitorStep) : option FString :=
  foldl (λ c s,
    match s with
    | CallStartMonitoring t OnChanged => if bool_decide (t = this) then OnChanged else c
    | CallStopMonitoring _ => c
    | RegistryEvent _ => c
    end) None history.

(** Every registration sits on the event its member function handles. *)
Definition WellFormed (R : IAssetRegistry.t) : Prop :=
  Forall (λ b, BoundMethod b = Method_OnAssetAdded) (IAssetRegistry.OnAssetAdded R)
  ∧ Forall (λ b, BoundMethod b = Method_OnAssetRemoved) (IAssetRegistry.OnAssetRemoved R)
  ∧ Forall (λ b, BoundMethod b = Method_OnAssetModified) (IAssetRegistry.OnAssetUpdated R).

(** ** Reference definitions, following the specification *)

(** The elements of a sequence in the order of their first occurrence. *)
Fixpoint first_occurrences `{EqDecision A} (l : list A) : list A :=
  match l with
  | [] => []
  | x :: l' => x :: filter (λ y, y ≠ x) (first_occurrences l')
  end.

(** The targets of the non-null pointers of an array. *)
Definition non_null {A : Type} (l : list (option A)) : list A := omap id l.

(** The closed taxonomy of section 3 and its priority order (section 4.3). *)
Inductive NodeKind : Type :=
| Event | FunctionEntry | CallExternalFunction | VariableRead | VariableWrite
| Other (TypeName : FString).

Definition classify_spec (c : UClass) : NodeKind :=
  if IsChildOf c UK2Node_Event then Event
  else if IsChildOf c UK2Node_FunctionEntry then FunctionEntry
  else if IsChildOf c UK2Node_CallFunction then CallExternalFunction
  else if IsChildOf c UK2Node_VariableGet then VariableRead
  else if IsChildOf c UK2Node_VariableSet then VariableWrite
  else Other (ClassName c).

(** The [type] string of each tag. *)
Definition kind_type_string (k : NodeKind) : FString :=
  match k with
  | Event => "Event"
  | FunctionEntry => "FunctionEntry"
  | CallExternalFunction => "CallFunction"
  | VariableRead => "VariableGet"
  | VariableWrite => "VariableSet"
  | Other TypeName => TypeName
  end.

(** Section 4.1: [Base], or [Base<ReferencedTypeName>], wrapped as
    [Array<...>] for a collection. *)
Definition type_encoding_spec (Base : FString) (Referenced : option FString)
    (Collection : bool) : FString :=
  let inner :=
    match Referenced with
    | Some r => Base +:+ "<" +:+ r +:+ ">"
    | None => Base
    end in
  if Collection then "Array<" +:+ inner +:+ ">" else inner.

(** Section 4.3, [connections]: the owning nodes at the far end of the
    wires of the output pins, pin by pin and wire by wire. *)
Definition wire_targets (h : Heap) (a : addr) : list addr :=
  p ← non_null (Pins (node_at h a));
  if bool_decide (Direction (pin_at h p) = EGPD_Output)
  then lp ← non_null (LinkedTo (pin_at h p));
       match OwningNode (pin_at h lp) with Some owner => [owner] | None => [] end
  else [].

(** The loop state of [ExtractDependencies] after the paths [l] have been
    recorded: [DependenciesArray] and [UniqueDependencies]. *)
Definition dependency_state (l : list FString) : list FJsonValue * gset FString :=
  (FJsonValueString <$> l, list_to_set l).

Section Reference.
Context `{EngineConstants}.

(** Section 4.5: the paths met at one node, the function-call class path
    before the default objects of the object-typed pins. *)
Definition node_paths (h : Heap) (a : addr) : list FString :=
  (if IsChildOf (NodeClass (node_at h a)) UK2Node_CallFunction
   then match MemberParentClass (node_at h a) with
        | Some FunctionClass => [ClassPathName FunctionClass]
        | None => []
        end
   else [])
  ++ (p ← non_null (Pins (node_at h a));
      if bool_decide (PinCategory (PinType (pin_at h p)) = PC_Object)
      then match DefaultObject (pin_at h p) with
           | Some Object => [ObjPathName Object]
           | None => []
           end
      else []).

(** The paths met over a list of graphs: graphs in the given order, nodes
    of a graph in the given order. *)
Definition encountered_paths (h : Heap) (Graphs : list (option UEdGraph)) : list FString :=
  G ← non_null Graphs; a ← non_null (Nodes G); node_paths h a.

(** Section 4.6, [functions]: the entry nodes of a function graph, the
    pins of an entry node that are parameters, and the record of one. *)
Definition entry_nodes (h : Heap) (G : UEdGraph) : list addr :=
  filter (λ a, IsChildOf (NodeClass (node_at h a)) UK2Node_FunctionEntry = true)
    (non_null (Nodes G)).

Definition parameter_pins (h : Heap) (a : addr) : list UEdGraphPin :=
  filter (λ P, Direction P = EGPD_Output ∧ PinCategory (PinType P) ≠ PC_Exec)
    (pin_at h <$> non_null (Pins (node_at h a))).

Definition parameter_record (P : UEdGraphPin) : FJsonValue :=
  FJsonValueObject
    [("name", FJsonValueString (PinName P));
     ("type", FJsonValueString (PinTypeToString (PinType P)))].

End Reference.

(** ** Sample assets *)

Module Sample.

Definition UE5 : EngineConstants :=
  {| PC_Exec := "exec";
     PC_Object := "object";
     CPF_ExposeOnSpawn := 0x0001000000000000;
     UBlueprint_ClassPathName := "/Script/Engine.Blueprint" |}.

Definition Class_Object : UClass :=
  MkClass "Object" "/Script/CoreUObject.Object" None.
Definition Class_EdGraphNode : UClass :=
  MkClass "EdGraphNode" "/Script/Engine.EdGraphNode" (Some Class_Object).
Definition Class_Comment : UClass :=
  MkClass "EdGraphNode_Comment" "/Script/UnrealEd.EdGraphNode_Comment" (Some Class_EdGraphNode).
Definition Class_K2Node : UClass :=
  MkClass "K2Node" "/Script/BlueprintGraph.K2Node" (Some Class_EdGraphNode).
Definition Class_Event : UClass :=
  MkClass "K2Node_Event" "/Script/BlueprintGraph.K2Node_Event" (Some Class_K2Node).
Definition Class_FunctionEntry : UClass :=
  MkClass "K2Node_FunctionEntry" "/Script/BlueprintGraph.K2Node_FunctionEntry"
    (Some Class_K2Node).
Definition Class_CallFunction : UClass :=
  MkClass "K2Node_CallFunction" "/Script/BlueprintGraph.K2Node_CallFunction"
    (Some Class_K2Node).
Definition Class_Knot : UClass :=
  MkClass "K2Node_Knot" "/Script/BlueprintGraph.K2Node_Knot" (Some Class_K2Node).
Definition Class_Blueprint : UClass :=
  MkClass "Blueprint" "/Script/Engine.Blueprint" (Some Class_Object).

Definition OwnerClass (Path : FString) : UClass := MkClass "Owner" Path (Some Class_Object).
Definition Asset (Path : FString) : UObject := MkObject "Asset" Path Class_Object.

Definition Exec : FEdGraphPinType := MkPinType "exec" None false.
Definition Int : FEdGraphPinType := MkPinType "int" None false.
Definition Real : FEdGraphPinType := MkPinType "real" None true.
Definition ObjectRef : FEdGraphPinType :=
  MkPinType "object" (Some (MkObject "Actor" "/Script/Engine.Actor" Class_Object)) false.

Definition pins (p : addr) : UEdGraphPin :=
  match p with
  (* EvtBeginPlay.then -> CallOpen.execute *)
  | 10 => MkPin "then" "" EGPD_Output Exec "" None [Some 11] (Some 1)
  | 11 => MkPin "execute" "" EGPD_Input Exec "" None [Some 10] (Some 2)
  (* N1.then -> N2.execute, N3.execute *)
  | 12 => MkPin "then" "" EGPD_Output Exec "" None [Some 13; Some 14] (Some 3)
  | 13 => MkPin "execute" "" EGPD_Input Exec "" None [Some 12] (Some 4)
  | 14 => MkPin "execute" "" EGPD_Input Exec "" None [Some 12] (Some 5)
  (* object pins with default objects *)
  | 15 => MkPin "Target" "Target" EGPD_Input ObjectRef "" (Some (Asset "B")) [] (Some 6)
  | 16 => MkPin "Target" "Target" EGPD_Input ObjectRef "" (Some (Asset "C")) [] (Some 7)
  (* pins of the function entry nodes *)
  | 17 => MkPin "then" "" EGPD_Output Exec "" None [] (Some 8)
  | 18 => MkPin "Count" "Count" EGPD_Output Int "0" None [] (Some 8)
  | 19 => MkPin "Unused" "Unused" EGPD_Input Int "" None [] (Some 8)
  | 20 => MkPin "Speeds" "Speeds" EGPD_Output Real "" None [] (Some 9)
  | _ => MkPin "None" "" EGPD_Input Int "" None [] None
  end.

Definition nodes (a : addr) : UEdGraphNode :=
  match a with
  | 1 => MkNode "EvtBeginPlay" Class_Event "Event BeginPlay" "Add Event" 0 0 [Some 10] None
  | 2 => MkNode "CallOpen" Class_CallFunction "Open" "Interact" 256 0 [Some 11]
           (Some (OwnerClass "/Game/Interact.InteractInterface"))
  | 3 => MkNode "N1" Class_Event "N1" "" 0 0 [Some 12] None
  | 4 => MkNode "N2" Class_Knot "N2" "" 0 0 [Some 13] None
  | 5 => MkNode "N3" Class_Knot "N3" "" 0 0 [Some 14] None
  | 6 => MkNode "CallA" Class_CallFunction "A" "" 0 0 [None; Some 15] (Some (OwnerClass "A"))
  | 7 => MkNode "CallA2" Class_CallFunction "A" "" 0 0 [Some 16] (Some (OwnerClass "A"))
  | 8 => MkNode "Entry" Class_FunctionEntry "Tick" "" 0 0 [Some 17; None; Some 18; Some 19] None
  | 9 => MkNode "Entry2" Class_FunctionEntry "Tick" "" 0 0 [Some 20] None
  | _ => MkNode "Comment" Class_Comment "Note" "ignored" (-32) 64 [] None
  end.

Definition heap : Heap := MkHeap nodes pins.

Definition EventGraph : UEdGraph := MkGraph "EventGraph" [Some 1; Some 2].
Definition FanOutGraph : UEdGraph := MkGraph "FanOut" [Some 3; None; Some 4; Some 5].
Definition PathsGraph : UEdGraph := MkGraph "Paths" [Some 6; Some 7].
Definition OneEntry : UEdGraph := MkGraph "OneEntry" [Some 0; Some 8].
Definition TwoEntries : UEdGraph := MkGraph "TwoEntries" [Some 8; None; Some 9].
Definition NoEntry : UEdGraph := MkGraph "NoEntry" [Some 0].

Definition Counter : FBPVariableDescription := MkVariable "Counter" Int "Default" 0 "".

Definition Door : UBlueprint :=
  MkBlueprint "Door" "/Game/Door.Door" None None [Some EventGraph] [] [] None.
Definition Paths : UBlueprint :=
  MkBlueprint "Paths" "/Game/Paths.Paths" None None [None; Some PathsGraph] [] [] None.
Definition Library : UBlueprint :=
  MkBlueprint "Library" "/Game/Library.Library" (Some Class_Object) None
    [Some FanOutGraph; None] [Some OneEntry; None; Some TwoEntries; Some NoEntry]
    [Counter] (Some [None; Some (MkSCSNode "Mesh" None)]).

(** A world in which no monitor is subscribed. *)
Definition Idle : MonitorWorld :=
  MkMonitorWorld (IAssetRegistry.Mk [] [] []) ∅ [] [].

Definition DoorAsset : UObject := MkObject "Door" "/Game/Door.Door" Class_Blueprint.
Definition DoorData : FAssetData := MkAssetData "/Script/Engine.Blueprint" (Some DoorAsset).

(** A file system that keeps the files written to it and a JSON writer
    that only tells the empty object from the others. *)
Definition Disk : Platform :=
  {| JsonSerialize := λ o, if o is [] then "{}" else "{...}";
     FileSystem := list (FString * FString);
     SaveStringToFile := λ Text FilePath fs, (true, (FilePath, Text) :: fs) |}.

End Sample.

Module SampleProject.

Definition Gate : UBlueprint :=
  MkBlueprint "Gate" "/Game/Gate.Gate" None None [] [] [] None.
Definition OtherDoor : UBlueprint :=
  MkBlueprint "Door" "/Game/Props/Door.Door" None None [] [] [] None.

Definition GateAsset : UObject := MkObject "Gate" "/Game/Gate.Gate" Sample.Class_Blueprint.
Definition OtherDoorAsset : UObject :=
  MkObject "Door" "/Game/Props/Door.Door" Sample.Class_Blueprint.
Definition TextureAsset : UObject := MkObject "Wood" "/Game/Wood.Wood" Sample.Class_Object.

(** A registry that lists a blueprint, an asset that does not load, an
    asset of another class, and two more blueprints, one of them with the
    name of the first. *)
Definition project : Project :=
  {| GetAssetsByClass := λ _,
       [MkAssetData "/Script/Engine.Blueprint" (Some Sample.DoorAsset);
        MkAssetData "/Script/Engine.Blueprint" None;
        MkAssetData "/Script/Engine.Blueprint" (Some TextureAsset);
        MkAssetData "/Script/Engine.Blueprint" (Some GateAsset);
        MkAssetData "/Script/Engine.Blueprint" (Some OtherDoorAsset)];
     AsBlueprint := λ o,
       if bool_decide (ObjPathName o = "/Game/Door.Door") then Sample.Door
       else if bool_decide (ObjPathName o = "/Game/Gate.Gate") then Gate
       else OtherDoor;
     PathsCombine := λ Directory FileName, Directory +:+ "/" +:+ FileName |}.

(** A file system that refuses every write. *)
Definition ReadOnly : Platform :=
  {| JsonSerialize := λ _, "{...}";
     FileSystem := unit;
     SaveStringToFile := λ _ _ fs, (false, fs) |}.

End SampleProject.

(** * Properties *)

(** ** The type descriptor encoder *)

Lemma append_eq_empty (s t : FString) : s +:+ t = "" → s = "" ∧ t = "".
Proof. destruct s; simpl; [done | discriminate]. Qed.

Lemma FName_ToString_nonempty (Name : FName) : FName_ToString Name ≠ "".
Proof. unfold FName_ToString. by case_bool_decide. Qed.

Lemma PinTypeToString_spec (T : FEdGraphPinType) :
  PinTypeToString T =
  type_encoding_spec (FName_ToString (PinCategory T))
    (ObjName <$> PinSubCategoryObject T) (IsArray T).
Proof.
  unfold PinTypeToString, type_encoding_spec.
  destruct (PinSubCategoryObject T), (IsArray T); reflexivity.
Qed.

(** C6: the type encoder is a total function giving [Base], the printed
    category, when no referenced type is present, [Base<ReferencedTypeName>]
    when one is present, and the same wrapped as [Array<...>] when the
    collection flag is set; every type descriptor encodes to a non-empty
    string. *)
Theorem PinTypeToString_encoding (T : FEdGraphPinType) :
  let Base := FName_ToString (PinCategory T) in
  PinTypeToString T =
    type_encoding_spec Base (ObjName <$> PinSubCategoryObject T) (IsArray T)
  ∧ (PinSubCategoryObject T = None → IsArray T = false →
     PinTypeToString T = Base)
  ∧ (∀ o, PinSubCategoryObject T = Some o → IsArray T = false →
     PinTypeToString T = Base +:+ "<" +:+ ObjName o +:+ ">")
  ∧ (IsArray T = true →
     PinTypeToString T =
       "Array<"
       +:+ PinTypeToString (MkPinType (PinCategory T) (PinSubCategoryObject T) false)
       +:+ ">")
  ∧ (PinCategory T ≠ "" → Base = PinCategory T)
  ∧ PinTypeToString T ≠ "".
Proof.
  intros Base. split; [apply PinTypeToString_spec|].
  pose proof (FName_ToString_nonempty (PinCategory T)) as HBase. fold Base in HBase.
  assert (PinCategory T ≠ "" → Base = PinCategory T) as Hid.
  { intros Hne. unfold Base, FName_ToString. by rewrite bool_decide_eq_false_2. }
  destruct T as [cat [o|] [|]]; unfold PinTypeToString; simpl in *; fold Base.
  all: (split; [done|]).
  all: (split; [first [done | by intros ? [= <-] _]|]).
  all: (split; [done|]).
  all: (split; [exact Hid|]).
  - intros [[? _]%append_eq_empty _]%append_eq_empty. discriminate.
  - by intros [? _]%append_eq_empty.
  - intros [[? _]%append_eq_empty _]%append_eq_empty. discriminate.
  - done.
Qed.

Lemma PinTypeToString_encoding_witness :
  PinTypeToString Sample.Int = "int"
  ∧ PinTypeToString Sample.ObjectRef = "object<Actor>"
  ∧ PinTypeToString Sample.Real = "Array<real>".
Proof.
  pose proof (PinTypeToString_encoding Sample.Int) as (_ & HInt & _).
  pose proof (PinTypeToString_encoding Sample.ObjectRef) as (_ & _ & HObj & _).
  pose proof (PinTypeToString_encoding Sample.Real) as (_ & _ & _ & HArr & _).
  split; [exact (HInt eq_refl eq_refl)|].
  split; [exact (HObj _ eq_refl eq_refl)|].
  exact (HArr eq_refl).
Defined.

(** ** Node classification *)

Lemma Cast_Some (T : FString) (h : Heap) (a : addr) :
  Cast T h (Some a) = if IsChildOf (NodeClass (node_at h a)) T then Some a else None.
Proof. reflexivity. Qed.

(** C5: classification is a total function into the closed taxonomy; the
    kinds are tested in the order Event, FunctionEntry, CallExternalFunction,
    VariableRead, VariableWrite and the first match decides; a node of no
    such kind gets the Other tag, and its type string is the name of its
    concrete class. *)
Theorem NodeTypeToString_classification (h : Heap) (a : addr) :
  let c := NodeClass (node_at h a) in
  NodeTypeToString h (Some a) = kind_type_string (classify_spec c)
  ∧ (IsChildOf c UK2Node_Event = true → classify_spec c = Event)
  ∧ (IsChildOf c UK2Node_Event = false →
     IsChildOf c UK2Node_FunctionEntry = true → classify_spec c = FunctionEntry)
  ∧ (IsChildOf c UK2Node_Event = false →
     IsChildOf c UK2Node_FunctionEntry = false →
     IsChildOf c UK2Node_CallFunction = true → classify_spec c = CallExternalFunction)
  ∧ (IsChildOf c UK2Node_Event = false →
     IsChildOf c UK2Node_FunctionEntry = false →
     IsChildOf c UK2Node_CallFunction = false →
     IsChildOf c UK2Node_VariableGet = true → classify_spec c = VariableRead)
  ∧ (IsChildOf c UK2Node_Event = false →
     IsChildOf c UK2Node_FunctionEntry = false →
     IsChildOf c UK2Node_CallFunction = false →
     IsChildOf c UK2Node_VariableGet = false →
     IsChildOf c UK2Node_VariableSet = true → classify_spec c = VariableWrite)
  ∧ (IsChildOf c UK2Node_Event = false →
     IsChildOf c UK2Node_FunctionEntry = false →
     IsChildOf c UK2Node_CallFunction = false →
     IsChildOf c UK2Node_VariableGet = false →
     IsChildOf c UK2Node_VariableSet = false →
     classify_spec c = Other (ClassName c)
     ∧ NodeTypeToString h (Some a) = ClassName c).
Proof.
  intros c. unfold NodeTypeToString, classify_spec. rewrite !Cast_Some. fold c.
  split.
  - repeat (match goal with
            | |- context [IsChildOf c ?T] => destruct (IsChildOf c T)
            end; [reflexivity|]).
    reflexivity.
  - repeat split;
      repeat match goal with
             | E : IsChildOf c _ = _ |- _ => rewrite E; clear E
             | |- _ → _ => intros ->
             end; reflexivity.
Qed.

Lemma NodeTypeToString_classification_witness :
  NodeTypeToString Sample.heap (Some 1) = "Event"
  ∧ NodeTypeToString Sample.heap (Some 2) = "CallFunction"
  ∧ NodeTypeToString Sample.heap (Some 0) = "EdGraphNode_Comment".
Proof.
  pose proof (NodeTypeToString_classification Sample.heap 1) as (H1 & E1 & _).
  pose proof (NodeTypeToString_classification Sample.heap 2) as (H2 & _ & _ & C2 & _).
  pose proof (NodeTypeToString_classification Sample.heap 0) as (_ & _ & _ & _ & _ & _ & O).
  split; [by rewrite H1, (E1 eq_refl)|].
  split; [by rewrite H2, (C2 eq_refl eq_refl eq_refl)|].
  exact (proj2 (O eq_refl eq_refl eq_refl eq_refl eq_refl)).
Defined.

(** ** Loops *)

Lemma for_each_pure {A S : Type} (f : S → A → S) (body : A → S → option S)
    (l : list A) (s : S) :
  (∀ x s, body x s = Some (f s x)) → for_each l body s = Some (foldl f s l).
Proof.
  intros Hbody. revert s. induction l as [|x l IH]; intros s; simpl; [done|].
  by rewrite Hbody; simpl.
Qed.

Lemma for_each_emit {A B : Type} (g : A → list B) (body : A → list B → option (list B))
    (l : list A) (acc : list B) :
  (∀ x acc, body x acc = Some (acc ++ g x)) →
  for_each l body acc = Some (acc ++ (l ≫= g)).
Proof.
  intros Hbody. revert acc. induction l as [|x l IH]; intros acc; simpl.
  - by rewrite app_nil_r.
  - rewrite Hbody; simpl. by rewrite IH, <-(assoc_L (++)).
Qed.

(** A loop that serializes the target of every non-null pointer and skips
    the null ones gives one record per non-null pointer, in order. *)
Lemma for_each_non_null {A B C : Type} (f : option A → option B) (wrap : B → C)
    (l : list (option A)) (acc : list C) :
  (∀ a, is_Some (f (Some a))) →
  ∃ recs,
    for_each l (λ x acc,
      if x is Some _ then r ← f x; Some (acc ++ [wrap r]) else Some acc) acc
    = Some (acc ++ (wrap <$> recs))
    ∧ Forall2 (λ a r, f (Some a) = Some r) (non_null l) recs.
Proof.
  intros Hf. revert acc. induction l as [|[a|] l IH]; intros acc; simpl.
  - exists []. by rewrite app_nil_r.
  - destruct (Hf a) as [r Hr]. rewrite Hr; simpl.
    destruct (IH (acc ++ [wrap r])) as (recs & -> & Hrecs).
    exists (r :: recs). split; [by rewrite <-(assoc_L (++))|].
    by constructor.
  - apply IH.
Qed.

Lemma for_each_non_null_rel {A C : Type} (R : A → C → Prop)
    (body : option A → list C → option (list C)) (l : list (option A)) (acc : list C) :
  (∀ acc, body None acc = Some acc) →
  (∀ a acc, ∃ r, body (Some a) acc = Some (acc ++ [r]) ∧ R a r) →
  ∃ recs, for_each l body acc = Some (acc ++ recs) ∧ Forall2 R (non_null l) recs.
Proof.
  intros Hnull Hbody. revert acc. induction l as [|[a|] l IH]; intros acc; simpl.
  - exists []. by rewrite app_nil_r.
  - destruct (Hbody a acc) as (r & -> & Hr). simpl.
    destruct (IH (acc ++ [r])) as (recs & -> & Hrecs).
    exists (r :: recs). split; [by rewrite <-(assoc_L (++))|].
    by constructor.
  - rewrite Hnull. simpl. apply IH.
Qed.

Lemma bind_singleton_fmap {A B : Type} (f : A → B) (l : list A) :
  l ≫= (λ x, [f x]) = f <$> l.
Proof. induction l as [|x l IH]; csimpl; by f_equal. Qed.

Lemma bind_non_null {A B : Type} (g : A → list B) (l : list (option A)) :
  l ≫= (λ x, match x with Some a => g a | None => [] end) = non_null l ≫= g.
Proof. induction l as [|[a|] l IH]; csimpl; by f_equal. Qed.

Lemma fmap_bind_list {A B C : Type} (f : B → C) (g : A → list B) (l : list A) :
  f <$> (l ≫= g) = l ≫= (λ x, f <$> g x).
Proof. induction l as [|x l IH]; csimpl; [done|]. by rewrite fmap_app, IH. Qed.

Lemma bind_filter_list {A B : Type} (P : A → Prop) `{∀ x, Decision (P x)}
    (g : A → list B) (l : list A) :
  filter P l ≫= g = l ≫= (λ x, if bool_decide (P x) then g x else []).
Proof.
  induction l as [|x l IH]; [done|]. rewrite filter_cons. csimpl.
  rewrite <-IH. destruct (decide (P x)).
  - by rewrite bool_decide_eq_true_2.
  - by rewrite bool_decide_eq_false_2.
Qed.

Lemma Forall2_wrap {A B C : Type} (wrap : B → C) (R : A → B → Prop)
    (l : list A) (rs : list C) :
  Forall2 (λ a r, ∃ o, r = wrap o ∧ R a o) l rs →
  ∃ os, rs = wrap <$> os ∧ Forall2 R l os.
Proof.
  induction 1 as [|a r l rs (o & -> & Ho) _ (os & -> & IH)].
  - by exists [].
  - exists (o :: os). split; [done|]. by constructor.
Qed.

(** ** First occurrences *)

Section first_occurrences.
Context `{EqDecision A}.
Implicit Types (l acc : list A) (x y : A).

Lemma elem_of_first_occurrences l x : x ∈ first_occurrences l ↔ x ∈ l.
Proof.
  induction l as [|y l IH]; simpl; [done|].
  rewrite !elem_of_cons, list_elem_of_filter, IH.
  destruct (decide (x = y)); naive_solver.
Qed.

Lemma NoDup_first_occurrences l : NoDup (first_occurrences l).
Proof.
  induction l as [|y l IH]; simpl; constructor.
  - rewrite list_elem_of_filter. naive_solver.
  - by apply NoDup_filter.
Qed.

Lemma foldl_AddUnique l acc :
  foldl (λ acc x, AddUnique x acc) acc l
  = acc ++ filter (λ x, x ∉ acc) (first_occurrences l).
Proof.
  revert acc. induction l as [|y l IH]; intros acc; simpl.
  - by rewrite app_nil_r.
  - rewrite IH. unfold AddUnique. case_bool_decide as Hy.
    + rewrite filter_cons_False by naive_solver.
      rewrite list_filter_filter. f_equal. apply list_filter_iff.
      intros x. split; [|naive_solver]. intros Hx. split; [done|].
      by intros ->.
    + rewrite filter_cons_True by done.
      rewrite <-(assoc_L (++)). simpl. do 2 f_equal.
      rewrite list_filter_filter. apply list_filter_iff.
      intros x. rewrite elem_of_app, list_elem_of_singleton. naive_solver.
Qed.

Lemma first_occurrences_foldl l :
  first_occurrences l = foldl (λ acc x, AddUnique x acc) [] l.
Proof.
  rewrite foldl_AddUnique. simpl.
  induction (first_occurrences l) as [|x k IH]; [done|].
  rewrite filter_cons_True by apply not_elem_of_nil. by rewrite <-IH.
Qed.

Lemma first_occurrences_app l1 l2 :
  first_occurrences (l1 ++ l2)
  = first_occurrences l1 ++ filter (λ x, x ∉ l1) (first_occurrences l2).
Proof.
  rewrite (first_occurrences_foldl (l1 ++ l2)), foldl_app.
  rewrite <-first_occurrences_foldl, foldl_AddUnique. f_equal.
  apply list_filter_iff. intros x. by rewrite elem_of_first_occurrences.
Qed.

Lemma filter_ne_not_elem_of l x : x ∉ l → filter (λ y, y ≠ x) l = l.
Proof.
  induction l as [|y l IH]; [done|].
  rewrite not_elem_of_cons. intros [? ?].
  rewrite filter_cons_True by congruence. f_equal. by apply IH.
Qed.

Lemma first_occurrences_NoDup l : NoDup l → first_occurrences l = l.
Proof.
  induction 1 as [|x l Hx _ IH]; simpl; [done|].
  by rewrite IH, filter_ne_not_elem_of.
Qed.

(** Order of first occurrence: when [x] comes before [y] in the result,
    [x] is met at some position of the sequence up to which [y] has not
    been met. *)
Lemma first_occurrences_order l i j x y :
  first_occurrences l !! i = Some x →
  first_occurrences l !! j = Some y →
  i < j →
  ∃ k, l !! k = Some x ∧ y ∉ take (S k) l.
Proof.
  intros Hi Hj Hij.
  assert (x ∈ l) as Hx
    by (apply elem_of_first_occurrences, list_elem_of_lookup; eauto).
  apply list_elem_of_split_l in Hx as (l1 & l2 & -> & Hx).
  exists (length l1). split; [by rewrite list_lookup_middle|].
  rewrite (assoc_L (++) l1 [x] l2 : l1 ++ x :: l2 = (l1 ++ [x]) ++ l2) in *.
  rewrite take_app_length' by (rewrite length_app; simpl; lia).
  pose proof (NoDup_first_occurrences ((l1 ++ [x]) ++ l2)) as HND.
  rewrite first_occurrences_app in Hi, Hj, HND.
  rewrite (first_occurrences_app l1 [x]) in Hi, Hj, HND. simpl in Hi, Hj, HND.
  rewrite filter_cons_True, filter_nil in Hi, Hj, HND by done.
  set (k1 := first_occurrences l1) in *.
  assert (i = length k1) as ->.
  { eapply NoDup_lookup; [exact HND|exact Hi|].
    rewrite lookup_app_l by (rewrite length_app; simpl; lia).
    by rewrite list_lookup_middle. }
  rewrite lookup_app_r in Hj by (rewrite length_app; simpl; lia).
  apply list_elem_of_lookup_2, list_elem_of_filter in Hj. tauto.
Qed.

Lemma first_occurrences_fmap_inj_on `{EqDecision B} (f : A → B) l :
  (∀ x y, x ∈ l → y ∈ l → f x = f y → x = y) →
  first_occurrences (f <$> l) = f <$> first_occurrences l.
Proof.
  induction l as [|x l IH]; intros Hinj; csimpl; [done|]. f_equal.
  rewrite IH by (intros y z Hy Hz; apply Hinj; by constructor).
  assert (∀ y, y ∈ first_occurrences l → f y = f x → y = x) as Hx.
  { intros y Hy. rewrite elem_of_first_occurrences in Hy. apply Hinj; by constructor. }
  revert Hx. generalize (first_occurrences l). intros k Hx.
  induction k as [|y k IHk]; [done|]. rewrite fmap_cons.
  assert (∀ z, z ∈ k → f z = f x → z = x) as Hk
    by (intros z Hz; apply Hx; by constructor).
  destruct (decide (y = x)) as [->|Hne].
  - rewrite !filter_cons_False by naive_solver. by apply IHk.
  - rewrite !filter_cons_True; [by rewrite fmap_cons, IHk|done|].
    intros Hf. apply Hne, Hx; [by constructor|done].
Qed.

Lemma first_occurrences_fmap `{EqDecision B} (f : A → B) `{!Inj (=) (=) f} l :
  first_occurrences (f <$> l) = f <$> first_occurrences l.
Proof. apply first_occurrences_fmap_inj_on. intros x y _ _. apply (inj f). Qed.

End first_occurrences.

(** ** Connected nodes *)

Lemma GetConnectedNodes_spec (h : Heap) (a : addr) :
  GetConnectedNodes h (Some a) = Some (Some <$> first_occurrences (wire_targets h a)).
Proof.
  unfold GetConnectedNodes, wire_targets. simpl.
  rewrite <-first_occurrences_fmap by apply _. rewrite first_occurrences_foldl.
  generalize (@nil (option addr)) as acc.
  induction (Pins (node_at h a)) as [|[p|] pins IH]; intros acc; csimpl.
  - done.
  - case_bool_decide; csimpl; [|apply IH].
    rewrite fmap_app, foldl_app.
    assert (∀ links acc,
      for_each links (λ LinkedPin ConnectedNodes,
        match LinkedPin with
        | Some lp =>
            if OwningNode (pin_at h lp) is Some _
            then Some (AddUnique (OwningNode (pin_at h lp)) ConnectedNodes)
            else Some ConnectedNodes
        | None => Some ConnectedNodes
        end) acc
      = Some (foldl (λ acc x, AddUnique x acc) acc
                (Some <$> (lp ← non_null links;
                           match OwningNode (pin_at h lp) with
                           | Some owner => [owner]
                           | None => []
                           end)))) as Hinner.
    { clear. induction links as [|[lp|] links IH]; intros acc; csimpl; [done| |apply IH].
      destruct (OwningNode (pin_at h lp)) as [owner|]; csimpl; apply IH. }
    rewrite Hinner. csimpl. apply IH.
  - apply IH.
Qed.

(** ** The records of pins, nodes and graphs *)

Section Records.
Context `{EngineConstants}.

Lemma SerializePin_spec (h : Heap) (p : addr) :
  SerializePin h (Some p) =
  Some ([("name", FJsonValueString (PinName (pin_at h p)));
         ("display_name", FJsonValueString (PinDisplayName (pin_at h p)));
         ("direction",
          FJsonValueString
            (if bool_decide (Direction (pin_at h p) = EGPD_Input)
             then "input" else "output"));
         ("type", FJsonValueString (PinTypeToString (PinType (pin_at h p))))]
        ++ (if bool_decide (DefaultValue (pin_at h p) = "") then []
            else [("default_value", FJsonValueString (DefaultValue (pin_at h p)))])).
Proof.
  unfold SerializePin. simpl.
  repeat case_bool_decide; try done; congruence.
Qed.

Lemma SerializePin_is_Some (h : Heap) (p : addr) : is_Some (SerializePin h (Some p)).
Proof. rewrite SerializePin_spec. eauto. Qed.

Lemma SerializeNode_spec (h : Heap) (a : addr) :
  ∃ PinObjects,
    SerializeNode h (Some a) =
    Some [("id", FJsonValueString (NodeName (node_at h a)));
          ("type", FJsonValueString (NodeTypeToString h (Some a)));
          ("title", FJsonValueString (NodeTitle (node_at h a)));
          ("category", FJsonValueString (GetNodeCategory h (Some a)));
          ("position",
           FJsonValueObject
             [("x", FJsonValueNumber (NodePosX (node_at h a)));
              ("y", FJsonValueNumber (NodePosY (node_at h a)))]);
          ("pins", FJsonValueArray (FJsonValueObject <$> PinObjects));
          ("connections",
           FJsonValueArray
             ((λ t, FJsonValueString (NodeName (node_at h t)))
                <$> first_occurrences (wire_targets h a)))]
    ∧ Forall2 (λ p r, SerializePin h (Some p) = Some r)
        (non_null (Pins (node_at h a))) PinObjects.
Proof.
  destruct (for_each_non_null (SerializePin h) FJsonValueObject
              (Pins (node_at h a)) [] (SerializePin_is_Some h))
    as (PinObjects & Hpins & HF).
  exists PinObjects. split; [|done].
  unfold SerializeNode. simpl. rewrite Hpins. simpl.
  rewrite GetConnectedNodes_spec. simpl.
  assert (∀ ts acc,
    for_each (Some <$> ts) (λ ConnectedNode ConnectionsArray,
      C ← node_at h <$> ConnectedNode;
      Some (ConnectionsArray ++ [FJsonValueString (NodeName C)])) acc
    = Some (acc ++ ((λ t, FJsonValueString (NodeName (node_at h t))) <$> ts))) as ->.
  { clear. induction ts as [|t ts IH]; intros acc; csimpl.
    - by rewrite app_nil_r.
    - by rewrite IH, <-(assoc_L (++)). }
  reflexivity.
Qed.

Lemma SerializeNode_is_Some (h : Heap) (a : addr) : is_Some (SerializeNode h (Some a)).
Proof. destruct (SerializeNode_spec h a) as (? & -> & _). eauto. Qed.

Lemma SerializeGraph_spec (h : Heap) (G : UEdGraph) :
  ∃ NodeObjects,
    SerializeGraph h (Some G) =
    Some [("name", FJsonValueString (GraphName G));
          ("nodes", FJsonValueArray (FJsonValueObject <$> NodeObjects))]
    ∧ Forall2 (λ a r, SerializeNode h (Some a) = Some r) (non_null (Nodes G)) NodeObjects.
Proof.
  destruct (for_each_non_null (SerializeNode h) FJsonValueObject
              (Nodes G) [] (SerializeNode_is_Some h))
    as (NodeObjects & Hnodes & HF).
  exists NodeObjects. split; [|done].
  unfold SerializeGraph. simpl. by rewrite Hnodes.
Qed.

Lemma SerializeGraph_is_Some (h : Heap) (G : UEdGraph) : is_Some (SerializeGraph h (Some G)).
Proof. destruct (SerializeGraph_spec h G) as (? & -> & _). eauto. Qed.

End Records.

(** ** Variables, functions and components *)

Section Members.
Context `{EngineConstants}.

Lemma SerializeVariables_spec (B : UBlueprint) :
  SerializeVariables (Some B) =
  Some ((λ V,
           FJsonValueObject
             ([("name", FJsonValueString (VarName V));
               ("type", FJsonValueString (PinTypeToString (VarType V)));
               ("category", FJsonValueString (Category V));
               ("is_exposed",
                FJsonValueBoolean
                  (negb (Z.land (PropertyFlags V) CPF_ExposeOnSpawn =? 0)%Z))]
              ++ (if bool_decide (VarDefaultValue V = "") then []
                  else [("default_value", FJsonValueString (VarDefaultValue V))])))
          <$> NewVariables B).
Proof.
  unfold SerializeVariables. simpl.
  erewrite for_each_emit; [by rewrite bind_singleton_fmap|].
  intros V acc. simpl. repeat case_bool_decide; try done; congruence.
Qed.

Lemma SerializeComponents_spec (B : UBlueprint) :
  SerializeComponents (Some B) =
  Some (match SimpleConstructionScript B with
        | Some SCSNodes =>
            N ← non_null SCSNodes;
            match ComponentTemplate N with
            | Some Template =>
                [FJsonValueObject
                   [("name", FJsonValueString (VariableName N));
                    ("class", FJsonValueString (ClassName (ObjClass Template)))]]
            | None => []
            end
        | None => []
        end).
Proof.
  unfold SerializeComponents. simpl.
  destruct (SimpleConstructionScript B) as [SCSNodes|]; [|done].
  rewrite <-bind_non_null.
  erewrite for_each_emit; [done|].
  intros [N|] acc; [|by rewrite app_nil_r].
  destruct (ComponentTemplate N); [done|by rewrite app_nil_r].
Qed.

(** The pins of an entry node that the parameter loop keeps. *)
Lemma parameter_pins_bind (h : Heap) (a : addr) :
  Pins (node_at h a) ≫= (λ Pin,
    match Pin with
    | Some p =>
        if bool_decide (Direction (pin_at h p) = EGPD_Output)
           && bool_decide (PinCategory (PinType (pin_at h p)) ≠ PC_Exec)
        then [parameter_record (pin_at h p)] else []
    | None => []
    end)
  = parameter_record <$> parameter_pins h a.
Proof.
  unfold parameter_pins.
  induction (Pins (node_at h a)) as [|[p|] pins IH]; csimpl; [done| |done].
  rewrite IH, filter_cons.
  destruct (decide _) as [[HD HC]|Hn].
  - by rewrite !bool_decide_eq_true_2.
  - destruct (decide (Direction (pin_at h p) = EGPD_Output)).
    + rewrite (bool_decide_eq_false_2 (_ ≠ _)); [by rewrite andb_false_r|tauto].
    + by rewrite bool_decide_eq_false_2.
Qed.

Lemma entry_nodes_bind {B : Type} (h : Heap) (G : UEdGraph) (g : addr → list B) :
  Nodes G ≫= (λ Node,
    match Cast UK2Node_FunctionEntry h Node with
    | Some EntryNode => g EntryNode
    | None => []
    end)
  = entry_nodes h G ≫= g.
Proof.
  unfold entry_nodes.
  induction (Nodes G) as [|[a|] nodes IH]; csimpl; [done| |done].
  rewrite IH, filter_cons.
  destruct (decide _) as [E|E].
  - by rewrite E.
  - apply not_true_is_false in E. by rewrite E.
Qed.

Lemma SerializeFunctions_spec (h : Heap) (B : UBlueprint) :
  ∃ Functions,
    SerializeFunctions h (Some B) = Some Functions
    ∧ Forall2 (λ G r,
        ∃ GraphObject,
          SerializeGraph h (Some G) = Some GraphObject
          ∧ r = FJsonValueObject
                  [("name", FJsonValueString (GraphName G));
                   ("parameters",
                    FJsonValueArray
                      (parameter_record <$> (e ← entry_nodes h G; parameter_pins h e)));
                   ("graph", FJsonValueObject GraphObject)])
        (non_null (FunctionGraphs B)) Functions.
Proof.
  unfold SerializeFunctions. simpl.
  apply (for_each_non_null_rel _ _ _ []); [done|].
  intros G acc.
  erewrite (for_each_emit (λ Node,
    match Cast UK2Node_FunctionEntry h Node with
    | Some EntryNode => parameter_record <$> parameter_pins h EntryNode
    | None => []
    end)).
  - destruct (SerializeGraph_is_Some h G) as [GraphObject HG].
    rewrite HG. simpl. eexists. split; [reflexivity|].
    exists GraphObject. split; [done|].
    by rewrite entry_nodes_bind, fmap_bind_list.
  - intros Node ParamsArray.
    destruct (Cast UK2Node_FunctionEntry h Node) as [e|]; [|by rewrite app_nil_r].
    erewrite for_each_emit; [by rewrite <-parameter_pins_bind|].
    intros [p|] acc'; [|by rewrite app_nil_r].
    by destruct (_ && _); [|rewrite app_nil_r].
Qed.

End Members.

(** ** Dependency extraction *)

Section Dependencies.
Context `{EngineConstants}.

#[local] Arguments AddDependency : simpl never.
#[local] Arguments dependency_state : simpl never.

Lemma AddDependency_state (Path : FString) (l : list FString) :
  AddDependency Path (dependency_state l)
  = dependency_state
      (foldl (λ acc x, AddUnique x acc) l (filter (λ p, p ≠ "") [Path])).
Proof.
  unfold AddDependency, dependency_state, AddUnique.
  destruct (decide (Path = "")) as [->|Hne]; [done|].
  rewrite filter_cons_True, filter_nil by done. simpl.
  rewrite (bool_decide_eq_true_2 (Path ≠ "")) by done. simpl.
  destruct (decide (Path ∈ l)) as [Hin|Hin].
  - rewrite (bool_decide_eq_true_2 (Path ∈ l)) by done.
    rewrite bool_decide_eq_false_2; [done|].
    rewrite elem_of_list_to_set. tauto.
  - rewrite (bool_decide_eq_false_2 (Path ∈ l)) by done.
    rewrite bool_decide_eq_true_2 by (by rewrite elem_of_list_to_set).
    rewrite fmap_app, list_to_set_app_L. simpl. f_equal. set_solver.
Qed.

Lemma dependency_pins_loop (h : Heap) (pins : list (option addr)) (l : list FString) :
  for_each pins (λ Pin st,
    match Pin with
    | Some p =>
        if bool_decide (PinCategory (PinType (pin_at h p)) = PC_Object) then
          match DefaultObject (pin_at h p) with
          | Some Object => Some (AddDependency (ObjPathName Object) st)
          | None => Some st
          end
        else Some st
    | None => Some st
    end) (dependency_state l)
  = Some (dependency_state
            (foldl (λ acc x, AddUnique x acc) l
               (filter (λ p, p ≠ "")
                  (p ← non_null pins;
                   if bool_decide (PinCategory (PinType (pin_at h p)) = PC_Object)
                   then match DefaultObject (pin_at h p) with
                        | Some Object => [ObjPathName Object]
                        | None => []
                        end
                   else [])))).
Proof.
  revert l. induction pins as [|[p|] pins IH]; intros l; csimpl; [done| |apply IH].
  rewrite filter_app, foldl_app.
  case_bool_decide; csimpl; [|apply IH].
  destruct (DefaultObject (pin_at h p)) as [Object|]; csimpl; [|apply IH].
  rewrite AddDependency_state. apply IH.
Qed.

Lemma dependency_nodes_loop (h : Heap) (nodes : list (option addr)) (l : list FString) :
  for_each nodes (λ Node st,
    match Node with
    | None => Some st
    | Some a =>
        let st :=
          match Cast UK2Node_CallFunction h Node with
          | Some CallNode =>
              match MemberParentClass (node_at h CallNode) with
              | Some FunctionClass => AddDependency (ClassPathName FunctionClass) st
              | None => st
              end
          | None => st
          end in
        for_each (Pins (node_at h a)) (λ Pin st,
          match Pin with
          | Some p =>
              if bool_decide (PinCategory (PinType (pin_at h p)) = PC_Object) then
                match DefaultObject (pin_at h p) with
                | Some Object => Some (AddDependency (ObjPathName Object) st)
                | None => Some st
                end
              else Some st
          | None => Some st
          end) st
    end) (dependency_state l)
  = Some (dependency_state
            (foldl (λ acc x, AddUnique x acc) l
               (filter (λ p, p ≠ "") (a ← non_null nodes; node_paths h a)))).
Proof.
  revert l. induction nodes as [|[a|] nodes IH]; intros l; csimpl; [done| |apply IH].
  rewrite filter_app, foldl_app. unfold node_paths at 1.
  rewrite filter_app, foldl_app.
  destruct (IsChildOf (NodeClass (node_at h a)) UK2Node_CallFunction); csimpl.
  - destruct (MemberParentClass (node_at h a)) as [FunctionClass|]; csimpl.
    + rewrite AddDependency_state, dependency_pins_loop. csimpl. apply IH.
    + rewrite dependency_pins_loop. csimpl. apply IH.
  - rewrite dependency_pins_loop. csimpl. apply IH.
Qed.

Lemma ExtractDependencies_spec (h : Heap) (B : UBlueprint) :
  ExtractDependencies h (Some B)
  = Some (FJsonValueString
            <$> first_occurrences
                  (filter (λ p, p ≠ "") (encountered_paths h (UbergraphPages B)))).
Proof.
  unfold ExtractDependencies, encountered_paths. simpl.
  rewrite first_occurrences_foldl.
  change ([], ∅) with (dependency_state []).
  generalize (@nil string) as l.
  induction (UbergraphPages B) as [|[G|] graphs IH]; intros l; csimpl; [done| |apply IH].
  rewrite filter_app, foldl_app, dependency_nodes_loop. csimpl. apply IH.
Qed.

End Dependencies.

(** ** The asset document *)

Section Document.
Context `{EngineConstants}.

Lemma SerializeBlueprint_spec (h : Heap) (B : UBlueprint) :
  ∃ Graphs Variables Functions Components Dependencies,
    SerializeBlueprint h (Some B) =
    Some ([("name", FJsonValueString (BlueprintName B));
           ("path", FJsonValueString (BlueprintPathName B));
           ("class_type", FJsonValueString "Blueprint")]
          ++ match ParentClass B with
             | Some c => [("parent_class", FJsonValueString (ClassName c))]
             | None => []
             end
          ++ match GeneratedClass B with
             | Some c => [("generated_class", FJsonValueString (ClassName c))]
             | None => []
             end
          ++ [("graphs", FJsonValueArray (FJsonValueObject <$> Graphs));
              ("variables", FJsonValueArray Variables);
              ("functions", FJsonValueArray Functions);
              ("components", FJsonValueArray Components);
              ("dependencies", FJsonValueArray Dependencies)])
    ∧ Forall2 (λ G r, SerializeGraph h (Some G) = Some r)
        (non_null (UbergraphPages B ++ FunctionGraphs B)) Graphs
    ∧ SerializeVariables (Some B) = Some Variables
    ∧ SerializeFunctions h (Some B) = Some Functions
    ∧ SerializeComponents (Some B) = Some Components
    ∧ ExtractDependencies h (Some B) = Some Dependencies.
Proof.
  destruct (for_each_non_null (SerializeGraph h) FJsonValueObject
              (UbergraphPages B) [] (SerializeGraph_is_Some h))
    as (G1 & HG1 & HF1).
  destruct (for_each_non_null (SerializeGraph h) FJsonValueObject
              (FunctionGraphs B) (FJsonValueObject <$> G1) (SerializeGraph_is_Some h))
    as (G2 & HG2 & HF2).
  destruct (SerializeFunctions_spec h B) as (Functions & HFun & _).
  exists (G1 ++ G2). do 4 eexists.
  split; [|split; [|split; [apply SerializeVariables_spec|split;
    [exact HFun|split; [apply SerializeComponents_spec|apply ExtractDependencies_spec]]]]].
  - unfold SerializeBlueprint. cbn [mbind option_bind fmap option_fmap option_map].
    simpl in HG1. rewrite HG1. cbn [mbind option_bind].
    rewrite HG2. cbn [mbind option_bind].
    rewrite SerializeVariables_spec, HFun, SerializeComponents_spec,
      ExtractDependencies_spec.
    cbn [mbind option_bind]. rewrite fmap_app.
    by destruct (ParentClass B), (GeneratedClass B).
  - unfold non_null. rewrite omap_app. by apply Forall2_app.
Qed.

End Document.

(** * The claims *)

(** C1: the dependency list holds every distinct path met during the
    traversal exactly once, in the order of first occurrence: graphs in the
    given order, nodes of a graph in the given order, the class path of a
    function call before the default objects of the node's object-typed
    pins.  Empty paths are not paths and are skipped.  Paths met in the
    order A, B, A, C give exactly A, B, C. *)
Theorem ExtractDependencies_first_occurrence_order `{EngineConstants}
    (h : Heap) (B : UBlueprint) :
  let met := filter (λ p, p ≠ "") (encountered_paths h (UbergraphPages B)) in
  ∃ deps : list FString,
    ExtractDependencies h (Some B) = Some (FJsonValueString <$> deps)
    ∧ deps = first_occurrences met
    ∧ NoDup deps
    ∧ (∀ p, p ∈ deps ↔ p ∈ met)
    ∧ (∀ i j p q, deps !! i = Some p → deps !! j = Some q → i < j →
       ∃ k, met !! k = Some p ∧ q ∉ take (S k) met)
    ∧ (encountered_paths h (UbergraphPages B) = ["A"; "B"; "A"; "C"] →
       deps = ["A"; "B"; "C"]).
Proof.
  intros met. exists (first_occurrences met).
  split; [apply ExtractDependencies_spec|].
  split; [done|].
  split; [apply NoDup_first_occurrences|].
  split; [apply elem_of_first_occurrences|].
  split; [apply first_occurrences_order|].
  subst met. by intros ->.
Qed.

Lemma ExtractDependencies_first_occurrence_order_witness :
  @encountered_paths Sample.UE5 Sample.heap (UbergraphPages Sample.Paths)
    = ["A"; "B"; "A"; "C"]
  ∧ @ExtractDependencies Sample.UE5 Sample.heap (Some Sample.Paths)
    = Some [FJsonValueString "A"; FJsonValueString "B"; FJsonValueString "C"].
Proof.
  destruct (@ExtractDependencies_first_occurrence_order Sample.UE5 Sample.heap Sample.Paths)
    as (deps & Hrun & _ & _ & _ & _ & Hexample).
  split; [reflexivity|].
  rewrite Hrun, (Hexample eq_refl). reflexivity.
Defined.

(** C4: the [connections] field of a node lists the nodes at the far end
    of the wires of its output pins, each node once, in the order in which
    they are first reached, by their identities.  A node with one output pin
    wired to pins of two nodes N2 and N3 gets the connections N2, N3; the
    two wires stay two entries of the pin's [LinkedTo]. *)
Theorem SerializeNode_connections (h : Heap) (a : addr) :
  let targets := wire_targets h a in
  let identity := λ t, NodeName (node_at h t) in
  ∃ NodeObject,
    SerializeNode h (Some a) = Some NodeObject
    ∧ GetConnectedNodes h (Some a) = Some (Some <$> first_occurrences targets)
    ∧ GetField "connections" NodeObject
      = Some (FJsonValueArray
                (FJsonValueString <$> (identity <$> first_occurrences targets)))
    ∧ NoDup (first_occurrences targets)
    ∧ (∀ t, t ∈ first_occurrences targets ↔ t ∈ targets)
    ∧ ((∀ t u, t ∈ targets → u ∈ targets → identity t = identity u → t = u) →
       identity <$> first_occurrences targets = first_occurrences (identity <$> targets)
       ∧ NoDup (identity <$> first_occurrences targets))
    ∧ (∀ p q2 q3 n2 n3,
         Pins (node_at h a) = [Some p] →
         Direction (pin_at h p) = EGPD_Output →
         LinkedTo (pin_at h p) = [Some q2; Some q3] →
         OwningNode (pin_at h q2) = Some n2 →
         OwningNode (pin_at h q3) = Some n3 →
         n2 ≠ n3 →
         GetField "connections" NodeObject
         = Some (FJsonValueArray
                   [FJsonValueString (identity n2); FJsonValueString (identity n3)])).
Proof.
  intros targets identity.
  destruct (SerializeNode_spec h a) as (PinObjects & Hrun & _).
  eexists. split; [exact Hrun|].
  split; [apply GetConnectedNodes_spec|].
  assert (GetField "connections"
            [("id", FJsonValueString (NodeName (node_at h a)));
             ("type", FJsonValueString (NodeTypeToString h (Some a)));
             ("title", FJsonValueString (NodeTitle (node_at h a)));
             ("category", FJsonValueString (GetNodeCategory h (Some a)));
             ("position",
              FJsonValueObject
                [("x", FJsonValueNumber (NodePosX (node_at h a)));
                 ("y", FJsonValueNumber (NodePosY (node_at h a)))]);
             ("pins", FJsonValueArray (FJsonValueObject <$> PinObjects));
             ("connections",
              FJsonValueArray
                ((λ t, FJsonValueString (NodeName (node_at h t)))
                   <$> first_occurrences (wire_targets h a)))]
          = Some (FJsonValueArray
                    (FJsonValueString <$> (identity <$> first_occurrences targets))))
    as Hfield.
  { simpl. by rewrite <-list_fmap_compose. }
  split; [exact Hfield|].
  split; [apply NoDup_first_occurrences|].
  split; [apply elem_of_first_occurrences|].
  split.
  - intros Hinj. rewrite <-first_occurrences_fmap_inj_on by done.
    split; [done|apply NoDup_first_occurrences].
  - intros p q2 q3 n2 n3 Hpins Hdir Hlinks Hq2 Hq3 Hne.
    rewrite Hfield. subst targets. unfold wire_targets.
    rewrite Hpins. csimpl. rewrite bool_decide_eq_true_2 by done.
    rewrite Hlinks. csimpl. rewrite Hq2, Hq3. csimpl.
    by rewrite filter_cons_True, filter_nil by done.
Qed.

Lemma SerializeNode_connections_witness :
  LinkedTo (pin_at Sample.heap 12) = [Some 13; Some 14]
  ∧ ∃ NodeObject,
      SerializeNode Sample.heap (Some 3) = Some NodeObject
      ∧ GetField "connections" NodeObject
        = Some (FJsonValueArray [FJsonValueString "N2"; FJsonValueString "N3"]).
Proof.
  split; [reflexivity|].
  destruct (SerializeNode_connections Sample.heap 3)
    as (NodeObject & Hrun & _ & _ & _ & _ & _ & Hfan).
  exists NodeObject. split; [exact Hrun|].
  apply (Hfan 12 13 14 4 5); (reflexivity || discriminate).
Defined.

(** C3, as the code has it: a default literal that is empty is left out of
    the record of a pin and of a variable declaration (no [default_value]
    key), and [parent_class] and [generated_class] are left out when the
    asset has no such class; the [category] of a node and of a variable
    declaration is always emitted, as the empty string when it is empty. *)
Theorem optional_fields `{EngineConstants} (h : Heap) :
  (∀ p, ∃ PinObject,
     SerializePin h (Some p) = Some PinObject
     ∧ GetField "default_value" PinObject
       = if bool_decide (DefaultValue (pin_at h p) = "") then None
         else Some (FJsonValueString (DefaultValue (pin_at h p))))
  ∧ (∀ B, ∃ Variables,
       SerializeVariables (Some B) = Some (FJsonValueObject <$> Variables)
       ∧ Forall2 (λ V VarObject,
           GetField "default_value" VarObject
           = (if bool_decide (VarDefaultValue V = "") then None
              else Some (FJsonValueString (VarDefaultValue V)))
           ∧ GetField "category" VarObject = Some (FJsonValueString (Category V)))
         (NewVariables B) Variables)
  ∧ (∀ B, ∃ JsonObject,
       SerializeBlueprint h (Some B) = Some JsonObject
       ∧ GetField "parent_class" JsonObject
         = (λ c, FJsonValueString (ClassName c)) <$> ParentClass B
       ∧ GetField "generated_class" JsonObject
         = (λ c, FJsonValueString (ClassName c)) <$> GeneratedClass B)
  ∧ (∀ a, ∃ NodeObject,
       SerializeNode h (Some a) = Some NodeObject
       ∧ GetField "category" NodeObject
         = Some (FJsonValueString (GetNodeCategory h (Some a)))).
Proof.
  repeat split.
  - intros p. eexists. split; [apply SerializePin_spec|].
    simpl. by case_bool_decide.
  - intros B. rewrite SerializeVariables_spec.
    eexists (_ <$> NewVariables B). rewrite <-list_fmap_compose.
    split; [reflexivity|].
    apply Forall2_fmap_r, Forall_Forall2_diag, Forall_forall.
    intros V _. simpl. by case_bool_decide.
  - intros B.
    destruct (SerializeBlueprint_spec h B) as (? & ? & ? & ? & ? & -> & _).
    eexists. split; [reflexivity|].
    by destruct (ParentClass B), (GeneratedClass B).
  - intros a. destruct (SerializeNode_spec h a) as (? & -> & _).
    eexists. by split.
Qed.

(** C3, as the specification states it, fails: a node whose category is
    the empty string gets a record with a [category] field holding the
    empty string. *)
Lemma empty_category_is_emitted :
  GetNodeCategory Sample.heap (Some 3) = ""
  ∧ ∃ NodeObject,
      SerializeNode Sample.heap (Some 3) = Some NodeObject
      ∧ GetField "category" NodeObject = Some (FJsonValueString "").
Proof. split; [reflexivity|]. eexists. split; reflexivity. Qed.

(** C7: with a null asset reference nothing is serialized.  Data
    extraction answers the empty document [{}] and export to a file answers
    [false]; both return, and neither touches the file system. *)
Theorem null_blueprint_is_rejected `{EngineConstants} `{Platform}
    (h : Heap) (FilePath : FString) (w : World) :
  SerializeBlueprint h None = None
  ∧ (∃ w', ExtractBlueprintData h None w = Some ("{}", w') ∧ Files w' = Files w)
  ∧ (∃ w', ExportBlueprintToFile h None FilePath w = Some (false, w')
           ∧ Files w' = Files w).
Proof. split; [done|]. split; eexists; by split. Qed.

(** C8: the [functions] array holds one entry per function graph, in
    order, made of the graph's name, the parameters and the graph record of
    that same graph; the parameters are the name and type of the output
    pins that are not of the exec category on the graph's entry node, in
    pin order. *)
Theorem SerializeFunctions_entries `{EngineConstants} (h : Heap) (B : UBlueprint) :
  ∃ Functions,
    SerializeFunctions h (Some B) = Some Functions
    ∧ Forall2 (λ G FuncObject,
        ∃ ParamsArray GraphObject,
          FuncObject = FJsonValueObject
                         [("name", FJsonValueString (GraphName G));
                          ("parameters", FJsonValueArray ParamsArray);
                          ("graph", FJsonValueObject GraphObject)]
          ∧ SerializeGraph h (Some G) = Some GraphObject
          ∧ (∀ e, entry_nodes h G = [e] →
             ParamsArray = parameter_record <$> parameter_pins h e))
        (non_null (FunctionGraphs B)) Functions.
Proof.
  destruct (SerializeFunctions_spec h B) as (Functions & Hrun & HF).
  exists Functions. split; [done|].
  eapply Forall2_impl; [exact HF|].
  intros G r (GraphObject & HG & ->). simpl.
  eexists _, GraphObject. split; [reflexivity|]. split; [done|].
  intros e ->. csimpl. by rewrite app_nil_r.
Qed.

Lemma SerializeFunctions_entries_witness :
  @entry_nodes Sample.heap Sample.OneEntry = [8]
  ∧ ∃ GraphObject Functions,
      @SerializeFunctions Sample.UE5 Sample.heap (Some Sample.Library)
      = Some (FJsonValueObject
                [("name", FJsonValueString "OneEntry");
                 ("parameters",
                  FJsonValueArray
                    [FJsonValueObject
                       [("name", FJsonValueString "Count");
                        ("type", FJsonValueString "int")]]);
                 ("graph", FJsonValueObject GraphObject)] :: Functions).
Proof.
  split; [reflexivity|].
  destruct (@SerializeFunctions_entries Sample.UE5 Sample.heap Sample.Library)
    as (Functions & Hrun & HF).
  apply Forall2_cons_inv_l in HF
    as (FuncObject & Functions' & (ParamsArray & GraphObject & -> & _ & Hparams) & _ & ->).
  exists GraphObject, Functions'.
  rewrite Hrun, (Hparams 8 eq_refl). reflexivity.
Defined.

(** The embedding does tell a null dereference: each serializer fails on a
    null argument, so that returning at all means having tested first. *)
Lemma null_dereference_is_an_error `{EngineConstants} (h : Heap) :
  SerializePin h None = None
  ∧ SerializeNode h None = None
  ∧ SerializeGraph h None = None
  ∧ GetConnectedNodes h None = None
  ∧ SerializeBlueprint h None = None.
Proof. done. Qed.

(** C9: serialization of an asset always returns, whatever null entries
    its arrays hold: no null pointer is dereferenced.  The [graphs] array
    holds exactly the records of the non-null graphs, top-level graphs
    first, the [nodes] array of a graph exactly the records of its non-null
    nodes, and the [pins] array of a node exactly the records of its
    non-null pins, each in the order of the source array. *)
Theorem serialization_skips_null_entries `{EngineConstants} (h : Heap) (B : UBlueprint) :
  ∃ JsonObject Graphs,
    SerializeBlueprint h (Some B) = Some JsonObject
    ∧ GetField "graphs" JsonObject = Some (FJsonValueArray (FJsonValueObject <$> Graphs))
    ∧ Forall2 (λ G GraphObject, SerializeGraph h (Some G) = Some GraphObject)
        (non_null (UbergraphPages B ++ FunctionGraphs B)) Graphs
    ∧ (∀ G, ∃ GraphObject NodeObjects,
         SerializeGraph h (Some G) = Some GraphObject
         ∧ GetField "nodes" GraphObject
           = Some (FJsonValueArray (FJsonValueObject <$> NodeObjects))
         ∧ Forall2 (λ a NodeObject, SerializeNode h (Some a) = Some NodeObject)
             (non_null (Nodes G)) NodeObjects)
    ∧ (∀ a, ∃ NodeObject PinObjects,
         SerializeNode h (Some a) = Some NodeObject
         ∧ GetField "pins" NodeObject
           = Some (FJsonValueArray (FJsonValueObject <$> PinObjects))
         ∧ Forall2 (λ p PinObject, SerializePin h (Some p) = Some PinObject)
             (non_null (Pins (node_at h a))) PinObjects).
Proof.
  destruct (SerializeBlueprint_spec h B) as (Graphs & ? & ? & ? & ? & -> & HG & _).
  eexists _, Graphs. split; [reflexivity|].
  split; [by destruct (ParentClass B), (GeneratedClass B)|].
  split; [done|]. split.
  - intros G. destruct (SerializeGraph_spec h G) as (NodeObjects & -> & HN).
    by eexists _, NodeObjects.
  - intros a. destruct (SerializeNode_spec h a) as (PinObjects & -> & HP).
    by eexists _, PinObjects.
Qed.

(** C10: the parameters of a function entry are gathered from every entry
    node of the function graph, in the order of the nodes: the qualifying
    pins of the first entry node, then those of the second, and so on.  A
    function graph without an entry node has no parameters. *)
Theorem SerializeFunctions_parameters_of_all_entry_nodes `{EngineConstants}
    (h : Heap) (B : UBlueprint) :
  ∃ Functions,
    SerializeFunctions h (Some B) = Some (FJsonValueObject <$> Functions)
    ∧ Forall2 (λ G FuncObject,
        GetField "parameters" FuncObject
        = Some (FJsonValueArray
                  (parameter_record <$> (e ← entry_nodes h G; parameter_pins h e)))
        ∧ (∀ e1 e2 more, entry_nodes h G = e1 :: e2 :: more →
           GetField "parameters" FuncObject
           = Some (FJsonValueArray
                     (parameter_record
                        <$> parameter_pins h e1 ++ parameter_pins h e2
                            ++ (e ← more; parameter_pins h e))))
        ∧ (entry_nodes h G = [] →
           GetField "parameters" FuncObject = Some (FJsonValueArray [])))
        (non_null (FunctionGraphs B)) Functions.
Proof.
  destruct (SerializeFunctions_spec h B) as (Functions & -> & HF).
  match goal with
  | |- ∃ _, _ ∧ Forall2 ?R _ _ =>
      destruct (Forall2_wrap FJsonValueObject R (non_null (FunctionGraphs B)) Functions)
        as (os & -> & Hos); [|by exists os]
  end.
  eapply Forall2_impl; [exact HF|].
  intros G r (GraphObject & _ & ->). eexists. split; [reflexivity|].
  simpl. split; [done|].
  split; [by intros e1 e2 more ->|by intros ->].
Qed.

Lemma SerializeFunctions_parameters_of_all_entry_nodes_witness :
  @entry_nodes Sample.heap Sample.TwoEntries = [8; 9]
  ∧ @entry_nodes Sample.heap Sample.NoEntry = []
  ∧ ∃ One Two None_,
      @SerializeFunctions Sample.UE5 Sample.heap (Some Sample.Library)
      = Some (FJsonValueObject <$> [One; Two; None_])
      ∧ GetField "parameters" Two
        = Some (FJsonValueArray
                  [FJsonValueObject
                     [("name", FJsonValueString "Count");
                      ("type", FJsonValueString "int")];
                   FJsonValueObject
                     [("name", FJsonValueString "Speeds");
                      ("type", FJsonValueString "Array<real>")]])
      ∧ GetField "parameters" None_ = Some (FJsonValueArray []).
Proof.
  split; [reflexivity|]. split; [reflexivity|].
  destruct (@SerializeFunctions_parameters_of_all_entry_nodes
              Sample.UE5 Sample.heap Sample.Library)
    as (Functions & Hrun & HF).
  apply Forall2_cons_inv_l in HF as (One & F1 & _ & HF & ->).
  apply Forall2_cons_inv_l in HF as (Two & F2 & (_ & HTwo & _) & HF & ->).
  apply Forall2_cons_inv_l in HF as (None_ & F3 & (_ & _ & HNone) & HF & ->).
  apply Forall2_nil_inv_l in HF as ->.
  exists One, Two, None_. split; [exact Hrun|].
  split; [exact (HTwo 8 9 [] eq_refl)|exact (HNone eq_refl)].
Defined.

(** ** The change monitor *)

Section MonitorProperties.
Context `{EngineConstants}.
Import UBlueprintChangeMonitor.

Lemma Subscriptions_AddUObject (this : addr) (m : MonitorMethod)
    (d : list FDelegateBinding) :
  Subscriptions this (AddUObject this m d) = S (Subscriptions this d).
Proof.
  unfold Subscriptions, AddUObject.
  rewrite filter_app, length_app, filter_cons_True, filter_nil by done.
  simpl. lia.
Qed.

Lemma RemoveAll_unsubscribed (this : addr) (d : list FDelegateBinding) :
  Subscriptions this d = 0 → RemoveAll this d = d.
Proof.
  unfold Subscriptions, RemoveAll. induction d as [|b d IH]; [done|].
  rewrite !filter_cons. destruct (decide (UserObject b = this)) as [E|E].
  - discriminate.
  - intros Hd. rewrite decide_True by done. by rewrite IH.
Qed.

(** [StopMonitoring] on a monitor that holds no registration leaves the
    registry, the callback slots and the past executions as they are. *)
Lemma StopMonitoring_idle (this : addr) (w : MonitorWorld) :
  Subscriptions this (IAssetRegistry.OnAssetAdded (AssetRegistry w)) = 0 →
  Subscriptions this (IAssetRegistry.OnAssetRemoved (AssetRegistry w)) = 0 →
  Subscriptions this (IAssetRegistry.OnAssetUpdated (AssetRegistry w)) = 0 →
  AssetRegistry (StopMonitoring this w) = AssetRegistry w
  ∧ OnBlueprintChangedDelegate (StopMonitoring this w) = OnBlueprintChangedDelegate w
  ∧ Executed (StopMonitoring this w) = Executed w.
Proof.
  intros Ha Hr Hu. unfold StopMonitoring. simpl.
  rewrite !RemoveAll_unsubscribed by done. by destruct (AssetRegistry w).
Qed.

(** One [StartMonitoring] from the idle world: one registration on each
    event, one execution of the callback for an added blueprint. *)
Lemma StartMonitoring_once (this : addr) (f : FString) (Blueprint : UObject) :
  IsChildOf (ObjClass Blueprint) UBlueprint_StaticClass = true →
  let w1 := StartMonitoring this (Some f) Sample.Idle in
  Subscriptions this (IAssetRegistry.OnAssetAdded (AssetRegistry w1)) = 1
  ∧ Executed (Raise (AssetAdded (MkAssetData UBlueprint_ClassPathName (Some Blueprint))) w1)
    = [(f, Blueprint)].
Proof.
  intros HB. simpl. split.
  - by rewrite Subscriptions_AddUObject.
  - unfold Broadcast, AddUObject, reverse, Invoke, OnAssetAdded, ExecuteIfBound. simpl.
    repeat first [ rewrite (bool_decide_eq_true_2 (_ = _)) by done
                 | rewrite HB
                 | rewrite lookup_insert_eq
                 | progress simpl ].
    done.
Qed.

(** C2, on the code: a second [StartMonitoring] replaces the stored
    callback but registers the monitor once more on each of the three
    events, so that it holds two registrations per event, and one added or
    modified blueprint then executes the callback twice. *)
Theorem StartMonitoring_twice_duplicates_subscriptions
    (this : addr) (f g : FString) (w : MonitorWorld) (Blueprint : UObject) :
  let w2 := StartMonitoring this (Some g) (StartMonitoring this (Some f) w) in
  let i2 := StartMonitoring this (Some g) (StartMonitoring this (Some f) Sample.Idle) in
  let AssetData := MkAssetData UBlueprint_ClassPathName (Some Blueprint) in
  OnBlueprintChangedDelegate w2 !! this = Some g
  ∧ Subscriptions this (IAssetRegistry.OnAssetAdded (AssetRegistry w2))
    = 2 + Subscriptions this (IAssetRegistry.OnAssetAdded (AssetRegistry w))
  ∧ Subscriptions this (IAssetRegistry.OnAssetRemoved (AssetRegistry w2))
    = 2 + Subscriptions this (IAssetRegistry.OnAssetRemoved (AssetRegistry w))
  ∧ Subscriptions this (IAssetRegistry.OnAssetUpdated (AssetRegistry w2))
    = 2 + Subscriptions this (IAssetRegistry.OnAssetUpdated (AssetRegistry w))
  ∧ (IsChildOf (ObjClass Blueprint) UBlueprint_StaticClass = true →
     Executed (Raise (AssetAdded AssetData) i2) = [(g, Blueprint); (g, Blueprint)]
     ∧ Executed (Raise (AssetUpdated AssetData) i2) = [(g, Blueprint); (g, Blueprint)]).
Proof.
  simpl. split; [by rewrite lookup_insert_eq|].
  rewrite !Subscriptions_AddUObject. do 3 (split; [done|]).
  intros HB.
  unfold Broadcast, AddUObject, reverse, Invoke, OnAssetAdded, OnAssetModified,
    ExecuteIfBound. simpl.
  repeat first [ rewrite (bool_decide_eq_true_2 (_ = _)) by done
               | rewrite HB
               | rewrite lookup_insert_eq
               | progress simpl ].
  done.
Qed.

End MonitorProperties.

Lemma StartMonitoring_twice_duplicates_subscriptions_witness :
  let w2 :=
    UBlueprintChangeMonitor.StartMonitoring 7 (Some "OnChanged2")
      (UBlueprintChangeMonitor.StartMonitoring 7 (Some "OnChanged1") Sample.Idle) in
  UBlueprintChangeMonitor.Subscriptions 7
    (IAssetRegistry.OnAssetAdded (AssetRegistry w2)) = 2
  ∧ Executed (@UBlueprintChangeMonitor.Raise Sample.UE5 (AssetAdded Sample.DoorData) w2)
    = [("OnChanged2", Sample.DoorAsset); ("OnChanged2", Sample.DoorAsset)].
Proof.
  destruct (@StartMonitoring_twice_duplicates_subscriptions Sample.UE5
              7 "OnChanged1" "OnChanged2" Sample.Idle Sample.DoorAsset)
    as (_ & Hsubs & _ & _ & Hexec).
  split; [exact Hsubs|exact (proj1 (Hexec eq_refl))].
Defined.

(** ** The samples, end to end *)

(** The asset [Door] of section 8: two nodes in the first graph, the event
    node connected to [CallOpen], and one dependency. *)
Example Door_document :
  ∃ JsonObject Event Call Rest,
    @SerializeBlueprint Sample.UE5 Sample.heap (Some Sample.Door) = Some JsonObject
    ∧ GetField "graphs" JsonObject
      = Some (FJsonValueArray
                [FJsonValueObject
                   [("name", FJsonValueString "EventGraph");
                    ("nodes", FJsonValueArray [FJsonValueObject Event; FJsonValueObject Call])]])
    ∧ Event = ("id", FJsonValueString "EvtBeginPlay") :: Rest
    ∧ GetField "connections" Event = Some (FJsonValueArray [FJsonValueString "CallOpen"])
    ∧ GetField "dependencies" JsonObject
      = Some (FJsonValueArray [FJsonValueString "/Game/Interact.InteractInterface"]).
Proof. do 4 eexists. repeat split. Qed.

(** Export of a non-null asset writes the file and answers [true]; export
    of a null asset answers [false] and writes nothing. *)
Example export_to_disk :
  let w := @MkWorld Sample.Disk [] [] in
  (∃ Text w',
     @ExportBlueprintToFile Sample.UE5 Sample.Disk Sample.heap (Some Sample.Door)
       "Door.json" w = Some (true, w')
     ∧ @Files Sample.Disk w' = [("Door.json", Text)])
  ∧ (∃ w',
       @ExportBlueprintToFile Sample.UE5 Sample.Disk Sample.heap None "Door.json" w
       = Some (false, w')
       ∧ @Files Sample.Disk w' = []
       ∧ @OutputLog Sample.Disk w'
         = [(LogError, "ExportBlueprintToFile: Invalid blueprint")]).
Proof. split; repeat eexists. Qed.

(** * Further properties of the exporter *)

(** ** Components *)

(** X1: the [components] array holds one [{name, class}] record for every
    non-null construction-script node that has a component template, in the
    order of the nodes; nodes without a template are skipped, and an asset
    without a construction script has no components. *)
Theorem SerializeComponents_templates (B : UBlueprint) :
  ∃ Components,
    SerializeComponents (Some B) = Some Components
    ∧ (SimpleConstructionScript B = None → Components = [])
    ∧ (∀ SCSNodes, SimpleConstructionScript B = Some SCSNodes →
       Components
       = (λ NT : USCS_Node * UObject,
            FJsonValueObject
              [("name", FJsonValueString (VariableName NT.1));
               ("class", FJsonValueString (ClassName (ObjClass NT.2)))])
           <$> omap (λ N, (λ T, (N, T)) <$> ComponentTemplate N) (non_null SCSNodes)).
Proof.
  rewrite SerializeComponents_spec. eexists. split; [reflexivity|].
  split; [by intros ->|]. intros SCSNodes ->.
  induction (non_null SCSNodes) as [|N Ns IH]; csimpl; [done|].
  rewrite IH. by destruct (ComponentTemplate N).
Qed.

Lemma SerializeComponents_templates_witness :
  let Mesh := MkObject "Mesh" "/Game/Door.Door:Mesh" (Sample.OwnerClass "/Script/Engine.StaticMeshComponent") in
  let B :=
    MkBlueprint "Door" "/Game/Door.Door" None None [] [] []
      (Some [Some (MkSCSNode "Root" None); None; Some (MkSCSNode "DoorMesh" (Some Mesh))]) in
  SerializeComponents (Some B)
  = Some [FJsonValueObject
            [("name", FJsonValueString "DoorMesh"); ("class", FJsonValueString "Owner")]].
Proof.
  intros Mesh B.
  destruct (SerializeComponents_templates B) as (Components & -> & _ & Hscs).
  by rewrite (Hscs _ eq_refl).
Defined.

(** ** Dependencies of concatenated graph lists *)

Lemma encountered_paths_app `{EngineConstants} (h : Heap) (G1 G2 : list (option UEdGraph)) :
  encountered_paths h (G1 ++ G2) = encountered_paths h G1 ++ encountered_paths h G2.
Proof. unfold encountered_paths, non_null. by rewrite omap_app, bind_app. Qed.

(** X2: dependency extraction reads the top-level graphs only, and it
    composes over them: when the top-level graphs of an asset are those of
    a first asset followed by those of a second, its dependencies are those
    of the first followed by those of the second that the first does not
    have.  The function graphs and the other members play no part. *)
Theorem ExtractDependencies_app `{EngineConstants} (h : Heap) (B B1 B2 : UBlueprint) :
  UbergraphPages B = UbergraphPages B1 ++ UbergraphPages B2 →
  ∃ d1 d2 : list FString,
    ExtractDependencies h (Some B1) = Some (FJsonValueString <$> d1)
    ∧ ExtractDependencies h (Some B2) = Some (FJsonValueString <$> d2)
    ∧ ExtractDependencies h (Some B)
      = Some (FJsonValueString <$> d1 ++ filter (λ p, p ∉ d1) d2).
Proof.
  intros HB. rewrite !ExtractDependencies_spec, HB, encountered_paths_app, filter_app.
  rewrite first_occurrences_app.
  eexists _, _. split; [reflexivity|]. split; [reflexivity|].
  do 3 f_equal. apply list_filter_iff. intros p.
  by rewrite elem_of_first_occurrences.
Qed.

Lemma ExtractDependencies_app_witness :
  let Rest :=
    MkBlueprint "Rest" "/Game/Rest.Rest" None None
      (UbergraphPages Sample.Door ++ UbergraphPages Sample.Paths) [] [] None in
  let Both :=
    MkBlueprint "Both" "/Game/Both.Both" None None
      (UbergraphPages Sample.Paths ++ UbergraphPages Rest)
      [Some Sample.PathsGraph] [] None in
  ∃ d1 d2 : list FString,
    @ExtractDependencies Sample.UE5 Sample.heap (Some Sample.Paths)
      = Some (FJsonValueString <$> d1)
    ∧ @ExtractDependencies Sample.UE5 Sample.heap (Some Rest)
      = Some (FJsonValueString <$> d2)
    ∧ @ExtractDependencies Sample.UE5 Sample.heap (Some Both)
      = Some (FJsonValueString <$> d1 ++ filter (λ p, p ∉ d1) d2).
Proof.
  intros Rest Both.
  exact (@ExtractDependencies_app Sample.UE5 Sample.heap Both Sample.Paths Rest eq_refl).
Defined.

(** ** The document as a whole *)

(** X3: a function graph is serialized twice and the two copies agree.
    The [graphs] array is the records of the non-null top-level graphs
    followed by those of the non-null function graphs, each the record
    that [SerializeGraph] gives for that graph; [functions] has one entry
    per non-null function graph, in the same order, carrying the name of
    the graph, and the [graph] field of the n-th entry is the n-th record
    of the function graphs in [graphs]. *)
Theorem function_graphs_agree `{EngineConstants} (h : Heap) (B : UBlueprint) :
  ∃ JsonObject Top Funcs Functions,
    SerializeBlueprint h (Some B) = Some JsonObject
    ∧ GetField "graphs" JsonObject
      = Some (FJsonValueArray (FJsonValueObject <$> Top ++ Funcs))
    ∧ Forall2 (λ G GraphObject, SerializeGraph h (Some G) = Some GraphObject)
        (non_null (UbergraphPages B)) Top
    ∧ Forall2 (λ G GraphObject, SerializeGraph h (Some G) = Some GraphObject)
        (non_null (FunctionGraphs B)) Funcs
    ∧ length Top = length (non_null (UbergraphPages B))
    ∧ GetField "functions" JsonObject
      = Some (FJsonValueArray (FJsonValueObject <$> Functions))
    ∧ Forall2 (λ G FuncObject,
        GetField "name" FuncObject = Some (FJsonValueString (GraphName G)))
        (non_null (FunctionGraphs B)) Functions
    ∧ Forall2 (λ GraphObject FuncObject,
        GetField "graph" FuncObject = Some (FJsonValueObject GraphObject))
        Funcs Functions.
Proof.
  destruct (SerializeBlueprint_spec h B)
    as (Graphs & ? & Functions & ? & ? & -> & HG & _ & HFun & _).
  destruct (SerializeFunctions_spec h B) as (Functions' & HFun' & HF).
  rewrite HFun in HFun'. injection HFun' as <-.
  unfold non_null in HG. rewrite omap_app in HG.
  apply Forall2_app_inv_l in HG as (Top & Funcs & HTop & HFuncs & ->).
  fold (non_null (UbergraphPages B)) in HTop.
  fold (non_null (FunctionGraphs B)) in HFuncs.
  assert (∃ os, Functions = FJsonValueObject <$> os
                ∧ Forall2 (λ G FuncObject,
                    GetField "name" FuncObject = Some (FJsonValueString (GraphName G)))
                    (non_null (FunctionGraphs B)) os
                ∧ Forall2 (λ GraphObject FuncObject,
                    GetField "graph" FuncObject = Some (FJsonValueObject GraphObject))
                    Funcs os) as (os & -> & Hnames & Hos).
  { clear -HFuncs HF. revert Functions HF.
    induction HFuncs as [|G g Gs Funcs HG _ IH]; intros Functions HF.
    - apply Forall2_nil_inv_l in HF as ->. exists []. repeat split; constructor.
    - apply Forall2_cons_inv_l in HF as (r & rs & (go & HG' & ->) & HF & ->).
      destruct (IH _ HF) as (os & -> & Hn & Hg).
      eexists (_ :: os). split; [reflexivity|].
      split; (constructor; [|done]); simpl; congruence. }
  eexists _, Top, Funcs, os. split; [reflexivity|].
  split; [by destruct (ParentClass B), (GeneratedClass B)|].
  do 2 (split; [done|]).
  split; [by apply Forall2_length in HTop|].
  split; [by destruct (ParentClass B), (GeneratedClass B)|done].
Qed.

(** X4: the keys of the document, in order: [name], [path], [class_type],
    then [parent_class] and [generated_class] when the asset has them, then
    [graphs], [variables], [functions], [components], [dependencies]; no
    key occurs twice. *)
Theorem SerializeBlueprint_keys `{EngineConstants} (h : Heap) (B : UBlueprint) :
  ∃ JsonObject,
    SerializeBlueprint h (Some B) = Some JsonObject
    ∧ JsonObject.*1
      = ["name"; "path"; "class_type"]
        ++ (if ParentClass B is Some _ then ["parent_class"] else [])
        ++ (if GeneratedClass B is Some _ then ["generated_class"] else [])
        ++ ["graphs"; "variables"; "functions"; "components"; "dependencies"]
    ∧ NoDup JsonObject.*1.
Proof.
  destruct (SerializeBlueprint_spec h B) as (? & ? & ? & ? & ? & -> & _).
  eexists. split; [reflexivity|].
  destruct (ParentClass B), (GeneratedClass B); simpl;
    (split; [reflexivity|]); by apply (bool_decide_unpack (NoDup _)).
Qed.

(** ** Connections *)

Lemma elem_of_wire_targets (h : Heap) (a t : addr) :
  t ∈ wire_targets h a ↔
  ∃ p lp, Some p ∈ Pins (node_at h a)
          ∧ Direction (pin_at h p) = EGPD_Output
          ∧ Some lp ∈ LinkedTo (pin_at h p)
          ∧ OwningNode (pin_at h lp) = Some t.
Proof.
  unfold wire_targets, non_null. rewrite list_elem_of_bind. split.
  - intros (p & Ht & Hp). apply list_elem_of_omap in Hp as (? & Hp & [= ->]).
    case_bool_decide as Hdir; [|by apply elem_of_nil in Ht].
    apply list_elem_of_bind in Ht as (lp & Ht & Hlp).
    apply list_elem_of_omap in Hlp as (? & Hlp & [= ->]).
    destruct (OwningNode (pin_at h lp)) as [owner|] eqn:Ho; [|by apply elem_of_nil in Ht].
    apply list_elem_of_singleton in Ht as ->. by exists p, lp.
  - intros (p & lp & Hp & Hdir & Hlp & Ho). exists p. split.
    + rewrite bool_decide_eq_true_2 by done. apply list_elem_of_bind.
      exists lp. split; [rewrite Ho; by apply list_elem_of_singleton|].
      apply list_elem_of_omap. by exists (Some lp).
    + apply list_elem_of_omap. by exists (Some p).
Qed.

(** X5: the connected nodes of a node are exactly the owners of the pins
    linked to its output pins.  No null pointer is ever among them, and a
    node without an output pin has no connections, whatever its other pins
    are linked to. *)
Theorem GetConnectedNodes_downstream (h : Heap) (a : addr) :
  ∃ ConnectedNodes,
    GetConnectedNodes h (Some a) = Some ConnectedNodes
    ∧ (None ∉ ConnectedNodes)
    ∧ (∀ t, Some t ∈ ConnectedNodes ↔
         ∃ p lp, Some p ∈ Pins (node_at h a)
                 ∧ Direction (pin_at h p) = EGPD_Output
                 ∧ Some lp ∈ LinkedTo (pin_at h p)
                 ∧ OwningNode (pin_at h lp) = Some t)
    ∧ ((∀ p, Some p ∈ Pins (node_at h a) → Direction (pin_at h p) ≠ EGPD_Output) →
       ConnectedNodes = []).
Proof.
  rewrite GetConnectedNodes_spec. eexists. split; [reflexivity|].
  split; [|split].
  - intros (t & ? & _)%list_elem_of_fmap. discriminate.
  - intros t. rewrite <-elem_of_wire_targets. split.
    + intros (? & [= ->] & Ht)%list_elem_of_fmap.
      by rewrite elem_of_first_occurrences in Ht.
    + intros Ht. apply list_elem_of_fmap. exists t.
      by rewrite elem_of_first_occurrences.
  - intros Hin.
    destruct (first_occurrences (wire_targets h a)) as [|t ts] eqn:E; [done|].
    assert (t ∈ wire_targets h a) as (p & lp & Hp & Hdir & _)%elem_of_wire_targets.
    { apply elem_of_first_occurrences. rewrite E. by constructor. }
    by destruct (Hin p Hp).
Qed.

Lemma GetConnectedNodes_downstream_witness :
  GetConnectedNodes Sample.heap (Some 2) = Some [].
Proof.
  destruct (GetConnectedNodes_downstream Sample.heap 2) as (Nodes & -> & _ & _ & Hin).
  rewrite Hin; [done|].
  intros p Hp. apply list_elem_of_singleton in Hp as [= ->]. discriminate.
Defined.

(** ** Variables *)

Lemma land_pow2_testbit (a k : Z) :
  (0 ≤ k)%Z → negb (Z.land a (2 ^ k) =? 0)%Z = Z.testbit a k.
Proof.
  intros Hk.
  assert (Z.land a (2 ^ k) = if Z.testbit a k then 2 ^ k else 0)%Z as ->.
  { apply Z.bits_inj'. intros n Hn.
    rewrite Z.land_spec, Z.pow2_bits_eqb by lia.
    destruct (Z.eqb_spec k n) as [->|Hne].
    - rewrite andb_true_r. destruct (Z.testbit a n) eqn:E.
      + by rewrite Z.pow2_bits_true.
      + by rewrite Z.bits_0.
    - rewrite andb_false_r. destruct (Z.testbit a k).
      + by rewrite Z.pow2_bits_false.
      + by rewrite Z.bits_0. }
  destruct (Z.testbit a k); [|done].
  pose proof (Z.pow_pos_nonneg 2 k). by destruct (Z.eqb_spec (2 ^ k) 0); [lia|].
Qed.

(** X6: when the expose-on-spawn flag is a single bit of the property
    flags, the [is_exposed] field of a variable record is that bit of the
    variable's flags, whatever the other bits are; there is one record per
    declared variable, in order. *)
Theorem is_exposed_is_the_flag_bit `{EngineConstants} (k : Z) (B : UBlueprint) :
  (0 ≤ k)%Z →
  CPF_ExposeOnSpawn = (2 ^ k)%Z →
  ∃ Variables,
    SerializeVariables (Some B) = Some (FJsonValueObject <$> Variables)
    ∧ Forall2 (λ V VarObject,
        GetField "name" VarObject = Some (FJsonValueString (VarName V))
        ∧ GetField "is_exposed" VarObject
          = Some (FJsonValueBoolean (Z.testbit (PropertyFlags V) k)))
        (NewVariables B) Variables.
Proof.
  intros Hk HCPF. rewrite SerializeVariables_spec.
  eexists (_ <$> NewVariables B). rewrite <-list_fmap_compose.
  split; [reflexivity|].
  apply Forall2_fmap_r, Forall_Forall2_diag, Forall_forall.
  intros V _. simpl. by rewrite HCPF, land_pow2_testbit.
Qed.

Lemma is_exposed_is_the_flag_bit_witness :
  let Exposed := MkVariable "Speed" Sample.Int "Default" 0x0001000000000005 "" in
  let B := MkBlueprint "Car" "/Game/Car.Car" None None [] [] [Sample.Counter; Exposed] None in
  ∃ Variables,
    @SerializeVariables Sample.UE5 (Some B) = Some (FJsonValueObject <$> Variables)
    ∧ Forall2 (λ V VarObject,
        GetField "name" VarObject = Some (FJsonValueString (VarName V))
        ∧ GetField "is_exposed" VarObject
          = Some (FJsonValueBoolean (Z.testbit (PropertyFlags V) 48)))
        (NewVariables B) Variables.
Proof.
  intros Exposed B.
  apply (@is_exposed_is_the_flag_bit Sample.UE5 48 B); [lia|reflexivity].
Defined.

(** ** Export to files *)

Section ExportProperties.
Context `{EngineConstants} `{Platform}.

Lemma ExportBlueprintToFile_spec (h : Heap) (B : UBlueprint) (FilePath : FString) (w : World) :
  ∃ JsonObject,
    SerializeBlueprint h (Some B) = Some JsonObject
    ∧ ExtractBlueprintData h (Some B) w = Some (JsonSerialize JsonObject, w)
    ∧ ExportBlueprintToFile h (Some B) FilePath w
      = let Saved := SaveStringToFile (JsonSerialize JsonObject) FilePath (Files w) in
        Some (Saved.1,
              MkWorld _
                (OutputLog w
                 ++ [if Saved.1
                     then (LogLog, "Exported blueprint to: " +:+ FilePath)
                     else (LogError, "Failed to save file: " +:+ FilePath)])
                Saved.2).
Proof.
  destruct (SerializeBlueprint_spec h B) as (? & ? & ? & ? & ? & HS & _).
  eexists. split; [exact HS|].
  unfold ExportBlueprintToFile, ExtractBlueprintData. rewrite HS. simpl.
  split; [done|].
  by destruct (SaveStringToFile _ FilePath (Files w)) as [[|] fs].
Qed.

(** X7: export of a non-null asset never fails to return.  Its answer is
    the answer of the file system to the one write it attempts, of the text
    that data extraction gives for the asset, at the given path; data
    extraction itself leaves the world as it is. *)
Theorem ExportBlueprintToFile_saves_extracted_data
    (h : Heap) (B : UBlueprint) (FilePath : FString) (w : World) :
  ∃ Text Exported w',
    ExtractBlueprintData h (Some B) w = Some (Text, w)
    ∧ ExportBlueprintToFile h (Some B) FilePath w = Some (Exported, w')
    ∧ (Exported, Files w') = SaveStringToFile Text FilePath (Files w)
    ∧ OutputLog w'
      = OutputLog w
        ++ [if Exported
            then (LogLog, "Exported blueprint to: " +:+ FilePath)
            else (LogError, "Failed to save file: " +:+ FilePath)].
Proof.
  destruct (ExportBlueprintToFile_spec h B FilePath w) as (JsonObject & _ & HE & HX).
  eexists _, _, _. split; [exact HE|]. split; [exact HX|].
  split; [|done]. simpl. by destruct (SaveStringToFile _ _ _).
Qed.

End ExportProperties.

Section ProjectProperties.
Context `{EngineConstants} `{Project}.

Lemma GetAllProjectBlueprints_spec :
  GetAllProjectBlueprints
  = Some <$> omap (λ AssetData, CastBlueprint (GetAsset AssetData))
               (GetAssetsByClass UBlueprint_ClassPathName).
Proof.
  unfold GetAllProjectBlueprints.
  assert (∀ l acc,
    foldl (λ Blueprints AssetData,
      if CastBlueprint (GetAsset AssetData) is Some Blueprint
      then Blueprints ++ [Some Blueprint]
      else Blueprints) acc l
    = acc ++ (Some <$> omap (λ AssetData, CastBlueprint (GetAsset AssetData)) l))
    as Hfold.
  { induction l as [|d l IH]; intros acc; csimpl.
    - by rewrite app_nil_r.
    - rewrite IH. destruct (CastBlueprint (GetAsset d)); csimpl; [|done].
      by rewrite <-(assoc_L (++)). }
  apply Hfold.
Qed.

(** X8: the blueprints of the project are the assets of the registry's
    answer on which [Cast<UBlueprint>] succeeds, in the order of the answer:
    an asset that does not load, or that is no blueprint, is skipped, and no
    null pointer is ever returned. *)
Theorem GetAllProjectBlueprints_loaded :
  (None ∉ GetAllProjectBlueprints)
  ∧ (∀ B, Some B ∈ GetAllProjectBlueprints ↔
       ∃ AssetData o,
         AssetData ∈ GetAssetsByClass UBlueprint_ClassPathName
         ∧ GetAsset AssetData = Some o
         ∧ IsChildOf (ObjClass o) UBlueprint_StaticClass = true
         ∧ B = AsBlueprint o)
  ∧ GetAllProjectBlueprints
    = Some <$> omap (λ AssetData, CastBlueprint (GetAsset AssetData))
                 (GetAssetsByClass UBlueprint_ClassPathName)
  ∧ length GetAllProjectBlueprints ≤ length (GetAssetsByClass UBlueprint_ClassPathName).
Proof.
  rewrite GetAllProjectBlueprints_spec. split; [|split; [|split; [done|]]].
  - intros (B & ? & _)%list_elem_of_fmap. discriminate.
  - intros B. split.
    + intros (? & [= <-] & (d & Hd & HB)%list_elem_of_omap)%list_elem_of_fmap.
      unfold CastBlueprint in HB. destruct (GetAsset d) as [o|] eqn:Ho; [|done].
      simpl in HB. destruct (IsChildOf _ _) eqn:Hc; [|done].
      injection HB as <-. by exists d, o.
    + intros (d & o & Hd & Ho & Hc & ->).
      apply list_elem_of_fmap. eexists. split; [done|].
      apply list_elem_of_omap. exists d. split; [done|].
      unfold CastBlueprint. rewrite Ho. simpl. by rewrite Hc.
  - rewrite length_fmap.
    induction (GetAssetsByClass UBlueprint_ClassPathName) as [|d l IH]; csimpl; [done|].
    destruct (CastBlueprint (GetAsset d)); simpl; lia.
Qed.

End ProjectProperties.

#[local] Arguments ExportBlueprintToFile : simpl never.

Section BatchProperties.
Context `{EngineConstants} `{Platform} `{Project}.

Lemma ExportAllBlueprints_loop (h : Heap) (OutputDirectory : FString)
    (Blueprints : list UBlueprint) (ExportedCount : Z) (w : World) :
  ∃ n w',
    for_each (Some <$> Blueprints) (λ Blueprint '(ExportedCount, w),
      B ← Blueprint;
      let FileName := BlueprintName B +:+ ".json" in
      let FilePath := PathsCombine OutputDirectory FileName in
      '(Exported, w) ← ExportBlueprintToFile h Blueprint FilePath w;
      Some (if Exported : bool then (ExportedCount + 1)%Z else ExportedCount, w))
      (ExportedCount, w)
    = Some (n, w')
    ∧ (ExportedCount ≤ n ≤ ExportedCount + Z.of_nat (length Blueprints))%Z
    ∧ ((∀ Text FilePath fs, (SaveStringToFile Text FilePath fs).1 = true) →
       n = (ExportedCount + Z.of_nat (length Blueprints))%Z)
    ∧ ((∀ Text FilePath fs, (SaveStringToFile Text FilePath fs).1 = false) →
       n = ExportedCount).
Proof.
  revert ExportedCount w.
  induction Blueprints as [|B Bs IH]; intros c w; csimpl.
  - eexists _, _. split; [reflexivity|]. repeat split; lia.
  - destruct (ExportBlueprintToFile_spec h B
                (PathsCombine OutputDirectory (BlueprintName B +:+ ".json")) w)
      as (JsonObject & _ & _ & ->).
    set (Saved := SaveStringToFile _ _ _). csimpl.
    destruct (IH (if Saved.1 then (c + 1)%Z else c)
                 (MkWorld _
                    (OutputLog w
                     ++ [if Saved.1
                         then (LogLog,
                               "Exported blueprint to: "
                               +:+ PathsCombine OutputDirectory (BlueprintName B +:+ ".json"))
                         else (LogError,
                               "Failed to save file: "
                               +:+ PathsCombine OutputDirectory (BlueprintName B +:+ ".json"))])
                    Saved.2))
      as (n & w' & Hrun & Hn & Hall & Hnone).
    exists n, w'. split; [exact Hrun|].
    split; [destruct Saved.1; lia|]. split.
    + intros Hok. rewrite (Hall Hok). subst Saved. rewrite Hok. lia.
    + intros Hko. rewrite (Hnone Hko). subst Saved. by rewrite Hko.
Qed.

(** X9: the project-wide export always returns; no blueprint pointer it
    dereferences is null.  The count it answers lies between zero and the
    number of blueprints of the project, it is that number when the file
    system accepts every write and zero when it refuses every write, and
    the last line of the log reports it. *)
Theorem ExportAllBlueprints_count (h : Heap) (OutputDirectory : FString) (w : World) :
  ∃ ExportedCount w',
    ExportAllBlueprints h OutputDirectory w = Some (ExportedCount, w')
    ∧ (0 ≤ ExportedCount ≤ Z.of_nat (length GetAllProjectBlueprints))%Z
    ∧ last (OutputLog w')
      = Some (LogLog,
              "Exported " +:+ pretty ExportedCount +:+ " blueprints to " +:+ OutputDirectory)
    ∧ ((∀ Text FilePath fs, (SaveStringToFile Text FilePath fs).1 = true) →
       ExportedCount = Z.of_nat (length GetAllProjectBlueprints))
    ∧ ((∀ Text FilePath fs, (SaveStringToFile Text FilePath fs).1 = false) →
       ExportedCount = 0%Z).
Proof.
  unfold ExportAllBlueprints. rewrite GetAllProjectBlueprints_spec.
  set (Blueprints := omap _ _).
  destruct (ExportAllBlueprints_loop h OutputDirectory Blueprints 0 w)
    as (n & w' & Hrun & Hn & Hall & Hnone).
  cbv zeta in Hrun |- *. rewrite Hrun.
  csimpl. eexists _, _. split; [reflexivity|].
  rewrite length_fmap. split; [lia|]. split; [unfold UE_LOG; simpl; by rewrite last_snoc|].
  split; [intros Hok; rewrite (Hall Hok); lia|exact Hnone].
Qed.

End BatchProperties.

Lemma ExportAllBlueprints_count_witness :
  (∃ w',
     @ExportAllBlueprints Sample.UE5 Sample.Disk SampleProject.project
       Sample.heap "Out" (@MkWorld Sample.Disk [] []) = Some (3%Z, w'))
  ∧ (∃ w',
       @ExportAllBlueprints Sample.UE5 SampleProject.ReadOnly SampleProject.project
         Sample.heap "Out" (@MkWorld SampleProject.ReadOnly [] ()) = Some (0%Z, w')).
Proof.
  split.
  - destruct (@ExportAllBlueprints_count Sample.UE5 Sample.Disk SampleProject.project
                Sample.heap "Out" (@MkWorld Sample.Disk [] []))
      as (n & w' & Hrun & _ & _ & Hall & _).
    exists w'. by rewrite Hrun, (Hall (λ _ _ _, eq_refl)).
  - destruct (@ExportAllBlueprints_count Sample.UE5 SampleProject.ReadOnly
                SampleProject.project Sample.heap "Out"
                (@MkWorld SampleProject.ReadOnly [] ()))
      as (n & w' & Hrun & _ & _ & _ & Hnone).
    exists w'. by rewrite Hrun, (Hnone (λ _ _ _, eq_refl)).
Defined.

(** X10: on a file system that records its writes, the project-wide export
    writes one file per blueprint of the project, in order: the file named
    after the blueprint, with the extension [.json], in the output
    directory, holding the text of that blueprint's document.  Two
    blueprints of the same name are written to the same path. *)
Theorem ExportAllBlueprints_files `{EngineConstants} `{Project}
    (Serialize : FJsonObject → FString) (h : Heap) (OutputDirectory : FString)
    (w : @World (Recording Serialize)) :
  ∃ (w' : @World (Recording Serialize)) (Written : list (FString * FString)),
    @ExportAllBlueprints _ (Recording Serialize) _ h OutputDirectory w
    = Some (Z.of_nat (length GetAllProjectBlueprints), w')
    ∧ @Files (Recording Serialize) w' = @Files (Recording Serialize) w ++ Written
    ∧ Forall2 (λ Blueprint file,
        ∃ B JsonObject,
          Blueprint = Some B
          ∧ SerializeBlueprint h (Some B) = Some JsonObject
          ∧ file = (PathsCombine OutputDirectory (BlueprintName B +:+ ".json"),
                    Serialize JsonObject))
        GetAllProjectBlueprints Written.
Proof.
  unfold ExportAllBlueprints. rewrite GetAllProjectBlueprints_spec.
  set (Blueprints := omap _ _). rewrite length_fmap.
  assert (∀ (c : Z) (w : @World (Recording Serialize)),
    ∃ (w' : @World (Recording Serialize)) Written,
      for_each (Some <$> Blueprints) (λ Blueprint '(ExportedCount, w),
        B ← Blueprint;
        let FileName := BlueprintName B +:+ ".json" in
        let FilePath := PathsCombine OutputDirectory FileName in
        '(Exported, w) ← @ExportBlueprintToFile _ (Recording Serialize) h Blueprint FilePath w;
        Some (if Exported : bool then (ExportedCount + 1)%Z else ExportedCount, w))
        (c, w)
      = Some ((c + Z.of_nat (length Blueprints))%Z, w')
      ∧ @Files (Recording Serialize) w' = @Files (Recording Serialize) w ++ Written
      ∧ Forall2 (λ Blueprint file,
          ∃ B JsonObject,
            Blueprint = Some B
            ∧ SerializeBlueprint h (Some B) = Some JsonObject
            ∧ file = (PathsCombine OutputDirectory (BlueprintName B +:+ ".json"),
                      Serialize JsonObject))
          (Some <$> Blueprints) Written) as Hloop.
  { clear w. induction Blueprints as [|B Bs IH]; intros c w; csimpl.
    - exists w, []. rewrite app_nil_r. split; [do 2 f_equal; lia|]. by split.
    - destruct (@ExportBlueprintToFile_spec _ (Recording Serialize) h B
                  (PathsCombine OutputDirectory (BlueprintName B +:+ ".json")) w)
        as (JsonObject & HS & _ & ->).
      csimpl.
      match goal with
      | |- ∃ _ _, for_each _ _ (?c', ?w1) = _ ∧ _ =>
          destruct (IH c' w1) as (w' & Written & Hrun & HFiles & HF)
      end.
      exists w', ((PathsCombine OutputDirectory (BlueprintName B +:+ ".json"),
                   Serialize JsonObject) :: Written).
      split; [etrans; [exact Hrun|]; do 2 f_equal; lia|]. split.
      + rewrite HFiles. simpl. by rewrite <-(assoc_L (++)).
      + constructor; [|done]. by exists B, JsonObject. }
  destruct (Hloop 0%Z w) as (w' & Written & Hrun & HFiles & HF).
  cbv zeta in Hrun |- *. rewrite Hrun.
  csimpl. eexists _, Written. split; [reflexivity|]. by split.
Qed.

(** * Further properties of the change monitor *)

Section MonitorHistories.
Context `{EngineConstants}.
Import UBlueprintChangeMonitor.

Lemma Invoke_cases (d : FAssetData) (w : MonitorWorld) (b : FDelegateBinding) :
  Invoke d w b = w
  ∨ ∃ f o,
      BoundMethod b ≠ Method_OnAssetRemoved
      ∧ AssetClassPath d = UBlueprint_ClassPathName
      ∧ GetAsset d = Some o
      ∧ IsChildOf (ObjClass o) UBlueprint_StaticClass = true
      ∧ OnBlueprintChangedDelegate w !! UserObject b = Some f
      ∧ Invoke d w b
        = MkMonitorWorld (AssetRegistry w) (OnBlueprintChangedDelegate w)
            (Executed w ++ [(f, o)]) (MonitorLog w).
Proof.
  unfold Invoke, OnAssetAdded, OnAssetRemoved, OnAssetModified, ExecuteIfBound.
  destruct (BoundMethod b); [|by left|];
    (case_bool_decide; [|by left]);
    (destruct (GetAsset d) as [o|]; [|by left]);
    (destruct (IsChildOf _ _) eqn:Hc; [|by left]);
    (destruct (_ !! _) as [f|] eqn:Hf; [|by left]);
    right; by exists f, o.
Qed.

Lemma Broadcast_frame (d : FAssetData) (l : list FDelegateBinding) (w : MonitorWorld) :
  AssetRegistry (Broadcast l d w) = AssetRegistry w
  ∧ OnBlueprintChangedDelegate (Broadcast l d w) = OnBlueprintChangedDelegate w
  ∧ MonitorLog (Broadcast l d w) = MonitorLog w.
Proof.
  unfold Broadcast. generalize (reverse l). clear l. intros l.
  revert w. induction l as [|b l IH]; intros w; simpl; [done|].
  destruct (IH (Invoke d w b)) as (-> & -> & ->).
  by destruct (Invoke_cases d w b) as [->|(? & ? & _ & _ & _ & _ & _ & ->)].
Qed.

Lemma Raise_frame (e : AssetEvent) (w : MonitorWorld) :
  AssetRegistry (Raise e w) = AssetRegistry w
  ∧ OnBlueprintChangedDelegate (Raise e w) = OnBlueprintChangedDelegate w
  ∧ MonitorLog (Raise e w) = MonitorLog w.
Proof. destruct e; apply Broadcast_frame. Qed.

Lemma Broadcast_unchanged (d : FAssetData) (l : list FDelegateBinding) (w : MonitorWorld) :
  Forall (λ b, Invoke d w b = w) l → Broadcast l d w = w.
Proof.
  intros Hl%Forall_reverse. unfold Broadcast.
  induction Hl as [|b l' Hb _ IH]; simpl; [done|]. by rewrite Hb.
Qed.

(** X12: an event about an asset that is not of the blueprint class, that
    does not load, or whose object is no blueprint changes nothing: no
    callback is executed, whichever monitors are registered. *)
Theorem Raise_other_asset (d : FAssetData) (w : MonitorWorld) :
  AssetClassPath d ≠ UBlueprint_ClassPathName
  ∨ GetAsset d = None
  ∨ (∃ o, GetAsset d = Some o ∧ IsChildOf (ObjClass o) UBlueprint_StaticClass = false) →
  Raise (AssetAdded d) w = w
  ∧ Raise (AssetRemoved d) w = w
  ∧ Raise (AssetUpdated d) w = w.
Proof.
  intros Hd.
  assert (∀ b, Invoke d w b = w) as Hinv.
  { intros b.
    destruct (Invoke_cases d w b) as [->|(f & o & _ & Hp & Ho & Hc & _)]; [done|].
    destruct Hd as [Hd|[Hd|(o' & Hd & Hc')]]; congruence. }
  repeat split; apply Broadcast_unchanged, Forall_forall; auto.
Qed.

Lemma Forall_filter_sub {A : Type} (P Q : A → Prop) `{∀ x, Decision (Q x)} (l : list A) :
  Forall P l → Forall P (filter Q l).
Proof.
  rewrite !Forall_forall. intros Hl x Hx. apply list_elem_of_filter in Hx as [_ Hx]. auto.
Qed.

Lemma WellFormed_Step (w : MonitorWorld) (s : MonitorStep) :
  WellFormed (AssetRegistry w) → WellFormed (AssetRegistry (Step w s)).
Proof.
  intros (Ha & Hr & Hu). destruct s as [this c|this|e]; simpl.
  - unfold WellFormed, AddUObject. simpl.
    rewrite !Forall_app, !Forall_singleton. by destruct c.
  - unfold WellFormed, RemoveAll. simpl.
    repeat split; by apply Forall_filter_sub.
  - by destruct (Raise_frame e w) as (-> & _).
Qed.

Lemma After_snoc (history : list MonitorStep) (s : MonitorStep) :
  After (history ++ [s]) = Step (After history) s.
Proof. unfold After. by rewrite foldl_app. Qed.

Lemma WellFormed_After (history : list MonitorStep) :
  WellFormed (AssetRegistry (After history)).
Proof.
  induction history as [|s history IH] using rev_ind.
  - repeat split; constructor.
  - rewrite After_snoc. by apply WellFormed_Step.
Qed.

(** X13: whatever calls and events came before, an asset-removed event
    changes nothing and executes no callback, also when the removed asset
    is a blueprint. *)
Theorem Raise_AssetRemoved_unchanged (history : list MonitorStep) (d : FAssetData) :
  Raise (AssetRemoved d) (After history) = After history.
Proof.
  destruct (WellFormed_After history) as (_ & Hr & _).
  apply Broadcast_unchanged. eapply Forall_impl; [exact Hr|].
  intros b Hb. unfold Invoke. by rewrite Hb.
Qed.

Lemma Broadcast_executions (d : FAssetData) (o : UObject) (m : MonitorMethod)
    (l : list FDelegateBinding) (w : MonitorWorld) :
  m ≠ Method_OnAssetRemoved →
  Forall (λ b, BoundMethod b = m) l →
  AssetClassPath d = UBlueprint_ClassPathName →
  GetAsset d = Some o →
  IsChildOf (ObjClass o) UBlueprint_StaticClass = true →
  Executed (Broadcast l d w)
  = Executed w
    ++ omap (λ b, (λ f, (f, o)) <$> (OnBlueprintChangedDelegate w !! UserObject b))
         (reverse l).
Proof.
  intros Hm Hl%Forall_reverse Hp Ho Hc. unfold Broadcast. revert w.
  induction Hl as [|b l' Hb _ IH]; intros w; csimpl; [by rewrite app_nil_r|].
  rewrite IH.
  assert (Invoke d w b
          = match OnBlueprintChangedDelegate w !! UserObject b with
            | Some f =>
                MkMonitorWorld (AssetRegistry w) (OnBlueprintChangedDelegate w)
                  (Executed w ++ [(f, o)]) (MonitorLog w)
            | None => w
            end) as ->.
  { unfold Invoke, OnAssetAdded, OnAssetModified, ExecuteIfBound.
    rewrite Hb, Hp, Ho, Hc, bool_decide_eq_true_2 by done. by destruct m. }
  destruct (_ !! _) as [f|]; csimpl; [|done].
  by rewrite <-(assoc_L (++)).
Qed.

(** X14: when every registration sits on the event of its member function,
    an added or modified blueprint executes one callback per registration
    on that event, from the last registration to the first, as the
    delegate dispatches: the callback stored in the registered monitor, and
    none for a monitor whose callback is not bound.  The registry and the
    stored callbacks stay as they are. *)
Theorem Raise_executes_once_per_registration
    (d : FAssetData) (o : UObject) (w : MonitorWorld) :
  WellFormed (AssetRegistry w) →
  AssetClassPath d = UBlueprint_ClassPathName →
  GetAsset d = Some o →
  IsChildOf (ObjClass o) UBlueprint_StaticClass = true →
  let callbacks := λ l,
    omap (λ b, (λ f, (f, o)) <$> (OnBlueprintChangedDelegate w !! UserObject b)) l in
  Executed (Raise (AssetAdded d) w)
  = Executed w ++ callbacks (reverse (IAssetRegistry.OnAssetAdded (AssetRegistry w)))
  ∧ Executed (Raise (AssetUpdated d) w)
    = Executed w
      ++ callbacks (reverse (IAssetRegistry.OnAssetUpdated (AssetRegistry w)))
  ∧ AssetRegistry (Raise (AssetAdded d) w) = AssetRegistry w
  ∧ AssetRegistry (Raise (AssetUpdated d) w) = AssetRegistry w
  ∧ OnBlueprintChangedDelegate (Raise (AssetAdded d) w) = OnBlueprintChangedDelegate w
  ∧ OnBlueprintChangedDelegate (Raise (AssetUpdated d) w) = OnBlueprintChangedDelegate w.
Proof.
  intros (Ha & _ & Hu) Hp Ho Hc callbacks.
  split; [by eapply (Broadcast_executions _ _ Method_OnAssetAdded)|].
  split; [by eapply (Broadcast_executions _ _ Method_OnAssetModified)|].
  destruct (Raise_frame (AssetAdded d) w) as (-> & -> & _).
  by destruct (Raise_frame (AssetUpdated d) w) as (-> & -> & _).
Qed.

End MonitorHistories.

Lemma Raise_other_asset_witness :
  let w := @After Sample.UE5 [CallStartMonitoring 7 (Some "OnChanged")] in
  let Texture := MkAssetData "/Script/Engine.Texture2D" (Some SampleProject.TextureAsset) in
  let Unloaded := MkAssetData "/Script/Engine.Blueprint" None in
  @UBlueprintChangeMonitor.Raise Sample.UE5 (AssetAdded Texture) w = w
  ∧ @UBlueprintChangeMonitor.Raise Sample.UE5 (AssetUpdated Unloaded) w = w.
Proof.
  intros w Texture Unloaded. split.
  - apply (@Raise_other_asset Sample.UE5 Texture w). left. discriminate.
  - apply (@Raise_other_asset Sample.UE5 Unloaded w). right. by left.
Defined.

Lemma Raise_executes_once_per_registration_witness :
  let w :=
    @After Sample.UE5
      [CallStartMonitoring 7 (Some "First");
       CallStartMonitoring 8 None;
       CallStartMonitoring 9 (Some "Second")] in
  Executed (@UBlueprintChangeMonitor.Raise Sample.UE5 (AssetUpdated Sample.DoorData) w)
  = [("Second", Sample.DoorAsset); ("First", Sample.DoorAsset)].
Proof.
  intros w.
  destruct (@Raise_executes_once_per_registration Sample.UE5
              Sample.DoorData Sample.DoorAsset w)
    as (_ & -> & _); [repeat constructor|reflexivity..].
Defined.

(** ** Subscriptions over a history *)

Section Subscriptions.
Import UBlueprintChangeMonitor.

Lemma Subscriptions_AddUObject_any (this t : addr) (m : MonitorMethod)
    (d : list FDelegateBinding) :
  Subscriptions this (AddUObject t m d)
  = if bool_decide (t = this) then S (Subscriptions this d) else Subscriptions this d.
Proof.
  unfold Subscriptions, AddUObject. rewrite filter_app, length_app.
  case_bool_decide.
  - rewrite filter_cons_True, filter_nil by done. simpl. lia.
  - rewrite filter_cons_False, filter_nil by done. simpl. lia.
Qed.

Lemma Subscriptions_RemoveAll (this t : addr) (d : list FDelegateBinding) :
  Subscriptions this (RemoveAll t d)
  = if bool_decide (t = this) then 0 else Subscriptions this d.
Proof.
  unfold Subscriptions, RemoveAll. rewrite list_filter_filter. case_bool_decide as Ht.
  - subst t. induction d as [|b d IH]; [done|].
    by rewrite filter_cons_False by naive_solver.
  - f_equal. apply list_filter_iff. intros b. naive_solver.
Qed.

(** X11: [StopMonitoring] removes every registration of the monitor from
    the three events, however many there are, and nothing else: each event
    keeps exactly the registrations of the other monitors, with their
    member functions and in their order.  The stored callbacks (its own
    included) and the past executions stay as they are. *)
Theorem StopMonitoring_removes_own_registrations (this : addr) (w : MonitorWorld) :
  let R := AssetRegistry w in
  let R' := AssetRegistry (StopMonitoring this w) in
  IAssetRegistry.OnAssetAdded R'
    = filter (λ b, UserObject b ≠ this) (IAssetRegistry.OnAssetAdded R)
  ∧ IAssetRegistry.OnAssetRemoved R'
    = filter (λ b, UserObject b ≠ this) (IAssetRegistry.OnAssetRemoved R)
  ∧ IAssetRegistry.OnAssetUpdated R'
    = filter (λ b, UserObject b ≠ this) (IAssetRegistry.OnAssetUpdated R)
  ∧ Subscriptions this (IAssetRegistry.OnAssetAdded R') = 0
  ∧ Subscriptions this (IAssetRegistry.OnAssetRemoved R') = 0
  ∧ Subscriptions this (IAssetRegistry.OnAssetUpdated R') = 0
  ∧ (∀ other, other ≠ this →
       filter (λ b, UserObject b = other) (IAssetRegistry.OnAssetAdded R')
       = filter (λ b, UserObject b = other) (IAssetRegistry.OnAssetAdded R)
       ∧ filter (λ b, UserObject b = other) (IAssetRegistry.OnAssetRemoved R')
         = filter (λ b, UserObject b = other) (IAssetRegistry.OnAssetRemoved R)
       ∧ filter (λ b, UserObject b = other) (IAssetRegistry.OnAssetUpdated R')
         = filter (λ b, UserObject b = other) (IAssetRegistry.OnAssetUpdated R))
  ∧ OnBlueprintChangedDelegate (StopMonitoring this w) = OnBlueprintChangedDelegate w
  ∧ Executed (StopMonitoring this w) = Executed w.
Proof.
  simpl. do 3 (split; [done|]).
  rewrite !Subscriptions_RemoveAll, !bool_decide_eq_true_2 by done.
  do 3 (split; [done|]). split; [|done].
  intros other Hother. unfold RemoveAll. rewrite !list_filter_filter.
  repeat split; apply list_filter_iff; intros b; naive_solver.
Qed.

Lemma StopMonitoring_removes_own_registrations_witness :
  let w :=
    StartMonitoring 8 (Some "Other")
      (StartMonitoring 7 (Some "Second") (StartMonitoring 7 (Some "First") Sample.Idle)) in
  IAssetRegistry.OnAssetAdded (AssetRegistry (StopMonitoring 7 w))
    = [MkBinding 8 Method_OnAssetAdded]
  ∧ filter (λ b, UserObject b = 8)
      (IAssetRegistry.OnAssetUpdated (AssetRegistry (StopMonitoring 7 w)))
    = [MkBinding 8 Method_OnAssetModified]
  ∧ OnBlueprintChangedDelegate (StopMonitoring 7 w) !! 7 = Some "Second".
Proof.
  intros w.
  destruct (StopMonitoring_removes_own_registrations 7 w)
    as (Hadded & _ & _ & _ & _ & _ & Hother & Hcb & _).
  split; [rewrite Hadded; reflexivity|]. split.
  - destruct (Hother 8) as (_ & _ & ->); [discriminate|reflexivity].
  - rewrite Hcb. reflexivity.
Defined.

End Subscriptions.

Section HistoryCounts.
Context `{EngineConstants}.
Import UBlueprintChangeMonitor.

(** X15: after any history, the registrations a monitor holds on each of
    the three events are as many as the calls of [StartMonitoring] on it
    since the last call of [StopMonitoring] on it; calls on other monitors
    and events do not count. *)
Theorem Subscriptions_After (this : addr) (history : list MonitorStep) :
  let R := AssetRegistry (After history) in
  Subscriptions this (IAssetRegistry.OnAssetAdded R) = pending_starts this history
  ∧ Subscriptions this (IAssetRegistry.OnAssetRemoved R) = pending_starts this history
  ∧ Subscriptions this (IAssetRegistry.OnAssetUpdated R) = pending_starts this history.
Proof.
  induction history as [|s history IH] using rev_ind; [done|].
  simpl in IH. destruct IH as (Ha & Hr & Hu).
  rewrite After_snoc. unfold pending_starts. rewrite foldl_app. simpl.
  fold (pending_starts this history).
  destruct s as [t c|t|e]; simpl.
  - rewrite !Subscriptions_AddUObject_any, Ha, Hr, Hu. by case_bool_decide.
  - rewrite !Subscriptions_RemoveAll, Ha, Hr, Hu. by case_bool_decide.
  - by destruct (Raise_frame e (After history)) as (-> & _).
Qed.

Lemma stored_callback_After (this : addr) (history : list MonitorStep) :
  OnBlueprintChangedDelegate (After history) !! this = last_callback this history.
Proof.
  induction history as [|s history IH] using rev_ind; [done|].
  rewrite After_snoc. unfold last_callback. rewrite foldl_app. simpl.
  fold (last_callback this history).
  destruct s as [t [f|]|t|e]; simpl.
  - rewrite lookup_insert. by case_decide; case_bool_decide.
  - rewrite lookup_delete. by case_decide; case_bool_decide.
  - done.
  - by destruct (Raise_frame e (After history)) as (_ & -> & _).
Qed.

(** X16: after any history, the callback stored in a monitor is the one
    given to the last call of [StartMonitoring] on it, unbound if that one
    was unbound or if there was no such call; [StopMonitoring] and the
    events do not touch it. *)
Theorem OnBlueprintChangedDelegate_After (this : addr) (history : list MonitorStep) :
  OnBlueprintChangedDelegate (After history) !! this = last_callback this history
  ∧ (∀ s, match s with
          | CallStartMonitoring t _ => t ≠ this
          | CallStopMonitoring _ | RegistryEvent _ => True
          end →
     OnBlueprintChangedDelegate (After (history ++ [s])) !! this
     = OnBlueprintChangedDelegate (After history) !! this).
Proof.
  split; [apply stored_callback_After|].
  intros s Hs. rewrite !stored_callback_After.
  unfold last_callback. rewrite foldl_app. simpl.
  destruct s as [t c| |]; [|done..].
  by rewrite bool_decide_eq_false_2.
Qed.

End HistoryCounts.

Lemma OnBlueprintChangedDelegate_After_witness :
  let history :=
    [CallStartMonitoring 7 (Some "First"); CallStartMonitoring 7 (Some "Second")] in
  OnBlueprintChangedDelegate (@After Sample.UE5 (history ++ [CallStopMonitoring 7])) !! 7
  = Some "Second".
Proof.
  intros history.
  destruct (@OnBlueprintChangedDelegate_After Sample.UE5 7 history) as (Hlast & Hkeep).
  rewrite (Hkeep (CallStopMonitoring 7) I). exact Hlast.
Defined.


Section SingleMonitor.
Context `{EngineConstants}.
Import UBlueprintChangeMonitor.

Lemma registrations_of_single_monitor (this : addr) (history : list MonitorStep) :
  Forall (λ s,
    match s with
    | CallStartMonitoring t _ | CallStopMonitoring t => t = this
    | RegistryEvent _ => True
    end) history →
  let R := AssetRegistry (After history) in
  IAssetRegistry.OnAssetAdded R
  = replicate (pending_starts this history) (MkBinding this Method_OnAssetAdded)
  ∧ IAssetRegistry.OnAssetUpdated R
    = replicate (pending_starts this history) (MkBinding this Method_OnAssetModified).
Proof.
  induction history as [|s history IH] using rev_ind; [done|].
  rewrite Forall_app, Forall_singleton. intros [Hh Hs]. simpl in IH.
  destruct (IH Hh) as (Ha & Hu).
  rewrite After_snoc. unfold pending_starts. rewrite foldl_app. simpl.
  fold (pending_starts this history).
  destruct s as [t c|t|e]; simpl in Hs |- *.
  - subst t. rewrite bool_decide_eq_true_2 by done. unfold AddUObject.
    rewrite Ha, Hu. by rewrite !replicate_S_end.
  - subst t. rewrite bool_decide_eq_true_2 by done. unfold RemoveAll.
    rewrite Ha, Hu. clear.
    split; (induction (pending_starts this history) as [|n IH]; [done|]);
      simpl; by rewrite filter_cons_False by naive_solver.
  - by destruct (Raise_frame e (After history)) as (-> & _).
Qed.

(** X17: when one monitor alone has been started and stopped, an added or
    modified blueprint executes its stored callback as many times as
    [StartMonitoring] was called on it since the last [StopMonitoring]:
    not at all after a stop, once after one start, n times after n starts
    in a row. *)
Theorem Raise_executes_once_per_start
    (this : addr) (history : list MonitorStep) (f : FString)
    (d : FAssetData) (o : UObject) :
  Forall (λ s,
    match s with
    | CallStartMonitoring t _ | CallStopMonitoring t => t = this
    | RegistryEvent _ => True
    end) history →
  last_callback this history = Some f →
  AssetClassPath d = UBlueprint_ClassPathName →
  GetAsset d = Some o →
  IsChildOf (ObjClass o) UBlueprint_StaticClass = true →
  Executed (Raise (AssetAdded d) (After history))
  = Executed (After history) ++ replicate (pending_starts this history) (f, o)
  ∧ Executed (Raise (AssetUpdated d) (After history))
    = Executed (After history) ++ replicate (pending_starts this history) (f, o).
Proof.
  intros Hh Hf Hp Ho Hc.
  destruct (registrations_of_single_monitor this history Hh) as (Ha & Hu).
  destruct (WellFormed_After history) as (Hwa & _ & Hwu).
  unfold Raise.
  rewrite (Broadcast_executions d o Method_OnAssetAdded) by done.
  rewrite (Broadcast_executions d o Method_OnAssetModified) by done.
  rewrite Ha, Hu, !reverse_replicate.
  assert (∀ m n,
    omap (λ b, (λ f, (f, o)) <$> (OnBlueprintChangedDelegate (After history) !! UserObject b))
      (replicate n (MkBinding this m))
    = replicate n (f, o)) as Hrep.
  { intros m n. induction n as [|n IH]; csimpl; [done|].
    by rewrite stored_callback_After, Hf, IH. }
  by rewrite !Hrep.
Qed.

End SingleMonitor.

Lemma Raise_executes_once_per_start_witness :
  let history :=
    [CallStartMonitoring 7 (Some "First");
     CallStopMonitoring 7;
     CallStartMonitoring 7 (Some "Second");
     RegistryEvent (AssetRemoved Sample.DoorData);
     CallStartMonitoring 7 (Some "Third");
     CallStartMonitoring 7 (Some "Fourth")] in
  Executed (@UBlueprintChangeMonitor.Raise Sample.UE5 (AssetAdded Sample.DoorData)
              (@After Sample.UE5 history))
  = replicate 3 ("Fourth", Sample.DoorAsset).
Proof.
  intros history.
  destruct (@Raise_executes_once_per_start Sample.UE5 7 history "Fourth"
              Sample.DoorData Sample.DoorAsset)
    as (-> & _); [by repeat constructor|reflexivity..].
Defined.
